(** * A chat router: connection registry, groups and direct-message history

    Shallow embedding of [src/main.py]: the [ConnectionManager] class, the
    body of the [websocket_endpoint] receive loop, its disconnect branch,
    and the HTTP queries [register], [get_online_users],
    [get_user_profile] and [get_inbox].

    Python code that raises keeps the state it had reached when the
    exception left the function, so every operation is a function from a
    world to an outcome (a returned value or a raised exception) paired
    with the world at that point.

    Modelling choices.
    - [active_connections] is an insertion-ordered dictionary (Python
      [dict]): [broadcast] and [get_online_users] iterate over it, so it is
      an association list whose update keeps the position of an existing
      key and appends a new one.  [users], [messages] and [groups] are only
      looked up by key and are finite maps.
    - A [WebSocket] is an object identity.  The transport is outside the
      program: the world records the frames written to each socket and the
      sockets whose transport has failed, each with the exception that
      [accept] and [send_text] raise on it from then on.
    - [json.loads] yields a JSON object whose fields are strings;
      [json.dumps] of the two dictionaries the program builds is kept as a
      structured [payload].
    - Handlers interleave at the granularity of one call of [connect], one
      iteration of the receive loop, or one run of the disconnect branch
      (see [op]). *)

From stdpp Require Import gmap strings list fin_maps.
From Stdlib Require Import ZArith.

Set Warnings "-clear-no-such-hyp".

(** ** Data model (pydantic models of the source) *)

Record User := mkUser { username : string; age : Z; gender : string }.

Record Message := mkMessage { sender : string; receiver : string; content : string }.

Record Group := mkGroup { name : string; members : list string }.

Abbreviation WebSocket := nat (only parsing).

(** The text frames the program writes: [json.dumps] of a chat envelope or
    of a system notice. *)
Inductive payload :=
| chat_payload (from body to : string)
| system_payload (body : string).

(** ** Insertion-ordered dictionaries with string keys *)

Section odict.
Context {V : Type}.

(** [d[k]], [None] standing for an absent key. *)
Fixpoint od_get (k : string) (d : list (string * V)) : option V :=
  match d with
  | [] => None
  | (k', v) :: d' => if decide (k = k') then Some v else od_get k d'
  end.

(** [d[k] = v]: an existing key keeps its position. *)
Fixpoint od_set (k : string) (v : V) (d : list (string * V)) : list (string * V) :=
  match d with
  | [] => [(k, v)]
  | (k', v') :: d' =>
      if decide (k = k') then (k, v) :: d' else (k', v') :: od_set k v d'
  end.

(** The dictionary without the key [k]: what [del d[k]] leaves when [k] is
    present ([disconnect] raises before it gets here when it is not). *)
Fixpoint od_del (k : string) (d : list (string * V)) : list (string * V) :=
  match d with
  | [] => []
  | (k', v') :: d' =>
      if decide (k = k') then od_del k d' else (k', v') :: od_del k d'
  end.

Definition od_keys (d : list (string * V)) : list string := d.*1.
Definition od_values (d : list (string * V)) : list V := d.*2.
End odict.

(** ** Worlds, outcomes and the monad of the program *)

Record ConnectionManager := mkManager {
  active_connections : list (string * WebSocket);
  users : gmap string User;
  messages : gmap string (gmap string (list Message));
  groups : gmap string Group
}.

Inductive exn :=
| KeyError (key : string)
| HTTPException (status_code : nat) (detail : string)
| WebSocketDisconnect
| RuntimeError (reason : string).

Record world := mkWorld {
  manager : ConnectionManager;
  failed : gmap nat exn;
  wire : list (nat * payload)
}.

Inductive outcome (A : Type) :=
| Return (a : A)
| Raise (e : exn).
Arguments Return {A} a.
Arguments Raise {A} e.

Definition Py (A : Type) : Type := world → outcome A * world.

Definition py_ret {A} (a : A) : Py A := λ w, (Return a, w).

Definition py_bind {A B} (c : Py A) (k : A → Py B) : Py B :=
  λ w, match c w with
       | (Return a, w') => k a w'
       | (Raise e, w') => (Raise e, w')
       end.

Definition raise {A} (e : exn) : Py A := λ w, (Raise e, w).

Declare Scope py_scope.
Delimit Scope py_scope with py.
Notation "x <~ c1 ; c2" := (py_bind c1 (λ x, c2))
  (at level 100, c1 at next level, right associativity) : py_scope.
Notation "c1 ;; c2" := (py_bind c1 (λ _, c2))
  (at level 100, right associativity) : py_scope.
Open Scope py_scope.

(** [manager], read and updated in place. *)
Definition the_manager : Py ConnectionManager := λ w, (Return (manager w), w).

Definition update (f : ConnectionManager → ConnectionManager) : Py unit :=
  λ w, (Return (), mkWorld (f (manager w)) (failed w) (wire w)).

Definition set_active_connections (d : list (string * WebSocket)) (m : ConnectionManager) :=
  mkManager d (users m) (messages m) (groups m).
Definition set_users (us : gmap string User) (m : ConnectionManager) :=
  mkManager (active_connections m) us (messages m) (groups m).
Definition set_messages (ms : gmap string (gmap string (list Message))) (m : ConnectionManager) :=
  mkManager (active_connections m) (users m) ms (groups m).
Definition set_groups (gs : gmap string Group) (m : ConnectionManager) :=
  mkManager (active_connections m) (users m) (messages m) gs.

(** [for x in l: f(x)] *)
Fixpoint for_each {A} (f : A → Py unit) (l : list A) : Py unit :=
  match l with
  | [] => py_ret ()
  | x :: l' => f x ;; for_each f l'
  end.

(** [[f(x) for x in l]] *)
Fixpoint comprehension {A B} (f : A → Py B) (l : list A) : Py (list B) :=
  match l with
  | [] => py_ret []
  | x :: l' => y <~ f x; ys <~ comprehension f l'; py_ret (y :: ys)
  end.

(** ** The transport *)

Definition accept (websocket : WebSocket) : Py unit :=
  λ w, match failed w !! websocket with
       | Some e => (Raise e, w)
       | None => (Return (), w)
       end.

Definition send_text (websocket : WebSocket) (data : payload) : Py unit :=
  λ w, match failed w !! websocket with
       | Some e => (Raise e, w)
       | None => (Return (), mkWorld (manager w) (failed w) (wire w ++ [(websocket, data)]))
       end.

(** ** ConnectionManager *)

Definition ConnectionManager_init : ConnectionManager := mkManager [] ∅ ∅ ∅.

Definition connect (username : string) (websocket : WebSocket) : Py unit :=
  accept websocket ;;
  m <~ the_manager;
  update (set_active_connections (od_set username websocket (active_connections m))) ;;
  m <~ the_manager;
  match messages m !! username with
  | None => update (set_messages (<[username := ∅]> (messages m)))
  | Some _ => py_ret ()
  end.

Definition disconnect (username : string) : Py unit :=
  m <~ the_manager;
  match od_get username (active_connections m) with
  | None => raise (KeyError username)
  | Some _ => update (set_active_connections (od_del username (active_connections m)))
  end.

Definition send_personal_message (message : payload) (username : string) : Py unit :=
  m <~ the_manager;
  match od_get username (active_connections m) with
  | Some websocket => send_text websocket message
  | None => py_ret ()
  end.

Definition broadcast (message : payload) : Py unit :=
  m <~ the_manager;
  for_each (λ connection, send_text connection message)
           (od_values (active_connections m)).

Definition send_to_group (message : payload) (group_name : string) : Py unit :=
  m <~ the_manager;
  match groups m !! group_name with
  | Some g =>
      for_each (λ member,
                  m <~ the_manager;
                  match od_get member (active_connections m) with
                  | Some websocket => send_text websocket message
                  | None => py_ret ()
                  end)
               (members g)
  | None => py_ret ()
  end.

(** [self.messages[a]] *)
Definition messages_getitem (a : string) : Py (gmap string (list Message)) :=
  m <~ the_manager;
  match messages m !! a with
  | Some inner => py_ret inner
  | None => raise (KeyError a)
  end.

(** [if b not in self.messages[a]: self.messages[a][b] = []] *)
Definition thread_setdefault (a b : string) : Py unit :=
  inner <~ messages_getitem a;
  match inner !! b with
  | Some _ => py_ret ()
  | None =>
      inner <~ messages_getitem a;
      m <~ the_manager;
      update (set_messages (<[a := <[b := []]> inner]> (messages m)))
  end.

(** [self.messages[a][b].append(message)] *)
Definition thread_append (a b : string) (message : Message) : Py unit :=
  inner <~ messages_getitem a;
  match inner !! b with
  | None => raise (KeyError b)
  | Some thread =>
      m <~ the_manager;
      update (set_messages (<[a := <[b := thread ++ [message]]> inner]> (messages m)))
  end.

Definition store_message (sender receiver content : string) : Py unit :=
  let message := mkMessage sender receiver content in
  thread_setdefault sender receiver ;;
  thread_append sender receiver message ;;
  thread_setdefault receiver sender ;;
  thread_append receiver sender message.

(** ** HTTP surface *)

Definition register (user : User) : Py string :=
  m <~ the_manager;
  match users m !! username user with
  | Some _ => raise (HTTPException 400 "Username already exists")
  | None =>
      update (set_users (<[username user := user]> (users m))) ;;
      py_ret "User registered successfully"
  end.

(** [manager.users[username]] *)
Definition users_getitem (username : string) : Py User :=
  m <~ the_manager;
  match users m !! username with
  | Some u => py_ret u
  | None => raise (KeyError username)
  end.

Definition get_online_users : Py (list (string * string)) :=
  m <~ the_manager;
  comprehension (λ username, u <~ users_getitem username; py_ret (username, gender u))
                (od_keys (active_connections m)).

Definition get_user_profile (username : string) : Py User :=
  m <~ the_manager;
  match users m !! username with
  | Some u => py_ret u
  | None => raise (HTTPException 404 "User not found")
  end.

Definition get_inbox (username : string) : Py (gmap string (list Message)) :=
  m <~ the_manager;
  match messages m !! username with
  | Some inner => py_ret inner
  | None => raise (HTTPException 404 "User not found")
  end.

(** ** The websocket handler *)

(** [message[k]] on the decoded frame *)
Definition getitem (message : gmap string string) (k : string) : Py string :=
  match message !! k with
  | Some v => py_ret v
  | None => raise (KeyError k)
  end.

(** [s[n:]] *)
Fixpoint slice_from (n : nat) (s : string) : string :=
  match n, s with
  | O, _ => s
  | S n', String _ s' => slice_from n' s'
  | S _, EmptyString => EmptyString
  end.

(** One iteration of the [while True] loop, from the decoded frame on.
    Each field of the frame is read where the source first reads it; the
    frame does not change, so later reads of the same field are the same
    value. *)
Definition on_receive (username : string) (message : gmap string string) : Py unit :=
  type <~ getitem message "type";
  if decide (type = "chat") then
    to <~ getitem message "receiver";
    if decide (to = "main") then
      body <~ getitem message "content";
      broadcast (chat_payload username body "main")
    else if String.prefix "group:" to then
      let group_name := slice_from 6 to in
      body <~ getitem message "content";
      send_to_group (chat_payload username body to) group_name
    else
      body <~ getitem message "content";
      send_personal_message (chat_payload username body to) to ;;
      store_message username to body
  else if decide (type = "create_group") then
    group_name <~ getitem message "group_name";
    m <~ the_manager;
    update (set_groups (<[group_name := mkGroup group_name [username]]> (groups m)))
  else if decide (type = "join_group") then
    group_name <~ getitem message "group_name";
    m <~ the_manager;
    match groups m !! group_name with
    | Some g =>
        update (set_groups (<[group_name := mkGroup (name g) (members g ++ [username])]> (groups m)))
    | None => py_ret ()
    end
  else py_ret ().

(** The [except WebSocketDisconnect] branch. *)
Definition on_disconnect (username : string) : Py unit :=
  disconnect username ;;
  broadcast (system_payload (String.append username " left the chat")).

(** [try: body except WebSocketDisconnect: handler] *)
Definition try_except_disconnect (body handler : Py unit) : Py unit :=
  λ w, match body w with
       | (Raise WebSocketDisconnect, w') => handler w'
       | r => r
       end.

(** The receive loop over the frames a client sends before it goes away,
    when [receive_text] raises [WebSocketDisconnect]. *)
Fixpoint receive_loop (username : string) (frames : list (gmap string string)) : Py unit :=
  match frames with
  | [] => raise WebSocketDisconnect
  | message :: frames' => on_receive username message ;; receive_loop username frames'
  end.

(** A whole session of one client, run without interleaving. *)
Definition websocket_endpoint (websocket : WebSocket) (username : string)
    (frames : list (gmap string string)) : Py unit :=
  connect username websocket ;;
  try_except_disconnect (receive_loop username frames) (on_disconnect username).

(** ** Interleaved executions *)

Inductive op :=
| Register (user : User)
| Connect (username : string) (websocket : nat)
| Receive (username : string) (message : gmap string string)
| Disconnect (username : string)
| Fail (websocket : nat) (e : exn).

(** The transport of a socket breaks: from now on [accept] and [send_text]
    on it raise [e]. *)
Definition transport_fails (websocket : WebSocket) (e : exn) : Py unit :=
  λ w, (Return (), mkWorld (manager w) (<[websocket := e]> (failed w)) (wire w)).

Definition step (o : op) : Py unit :=
  match o with
  | Register user => register user ;; py_ret ()
  | Connect username websocket => connect username websocket
  | Receive username message => on_receive username message
  | Disconnect username => on_disconnect username
  | Fail websocket e => transport_fails websocket e
  end.

(** The world after a sequence of operations; an operation that raises
    leaves the world it had reached. *)
Fixpoint run (ops : list op) (w : world) : world :=
  match ops with
  | [] => w
  | o :: ops' => run ops' (step o w).2
  end.

(** The usernames for which a call of [connect] has returned. *)
Fixpoint connected (ops : list op) (w : world) : gset string :=
  match ops with
  | [] => ∅
  | o :: ops' =>
      match o, (step o w).1 with
      | Connect username _, Return _ => {[username]}
      | _, _ => ∅
      end ∪ connected ops' (step o w).2
  end.

(** The world at start-up: [manager = ConnectionManager()], no socket has
    failed and nothing has been written. *)
Definition init : world := mkWorld ConnectionManager_init ∅ [].

(** ** Notions used in the statements *)

(** [self.messages[a][b]], [None] when either key is absent. *)
Definition thread (w : world) (a b : string) : option (list Message) :=
  messages (manager w) !! a ≫= λ inner, inner !! b.

(** The decoded frames a client sends. *)
Definition chat (to body : string) : gmap string string :=
  <["type" := "chat"]> (<["receiver" := to]> (<["content" := body]> ∅)).
Definition create_group (group_name : string) : gmap string string :=
  <["type" := "create_group"]> (<["group_name" := group_name]> ∅).
Definition join_group (group_name : string) : gmap string string :=
  <["type" := "join_group"]> (<["group_name" := group_name]> ∅).

(** [membersOf]: the member list of a group, empty for an absent group. *)
Definition members_of (w : world) (group_name : string) : list string :=
  match groups (manager w) !! group_name with
  | Some g => members g
  | None => []
  end.

(** How many times a username occurs in a member list. *)
Definition occurrences (u : string) (l : list string) : nat :=
  length (filter (λ x, x = u) l).

(** [isOnline] *)
Definition online (w : world) (username : string) : option nat :=
  od_get username (active_connections (manager w)).

(** The frames written between two worlds. *)
Definition written (w w' : world) : list (nat * payload) :=
  drop (length (wire w)) (wire w').

(** How many of the frames [l] went to the socket [websocket]. *)
Definition frames_to (websocket : nat) (l : list (nat * payload)) : nat :=
  length (filter (λ f, f.1 = websocket) l).

(** The world with [self.messages] replaced. *)
Definition with_messages (ms : gmap string (gmap string (list Message))) (w : world) : world :=
  mkWorld (set_messages ms (manager w)) (failed w) (wire w).

(** [ms[a][b]], [None] when either key is absent. *)
Definition thread_in (ms : gmap string (gmap string (list Message))) (a b : string) :
    option (list Message) :=
  ms !! a ≫= λ inner, inner !! b.

(** The index after [message] is appended to the thread [b] of [a]. *)
Definition push (a b : string) (message : Message)
    (ms : gmap string (gmap string (list Message))) :=
  match ms !! a with
  | Some inner => <[a := <[b := default [] (inner !! b) ++ [message]]> inner]> ms
  | None => ms
  end.

(** [c] takes every world to a [P]-related one, whether it returns or
    raises. *)
Definition keeps (P : relation world) {A} (c : Py A) : Prop := ∀ w, P w (c w).2.

(** Only the frames on the wire change. *)
Definition only_wire : relation world :=
  λ w w', manager w' = manager w ∧ failed w' = failed w.

(** Nobody comes online, the users with an index entry are the same, and
    only the entries of the users in [X] change. *)
Definition touches (X : gset string) : relation world :=
  λ w w', (∀ x, is_Some (online w' x) → is_Some (online w x))
          ∧ dom (messages (manager w')) = dom (messages (manager w))
          ∧ (∀ x, x ∉ X → messages (manager w') !! x = messages (manager w) !! x).

(** The receiver of a frame that takes the direct-chat branch. *)
Definition direct_receiver (message : gmap string string) : option string :=
  match message !! "type", message !! "receiver" with
  | Some type, Some to =>
      if decide (type = "chat") then
        if decide (to = "main") then None
        else if String.prefix "group:" to then None else Some to
      else None
  | _, _ => None
  end.

(** The users whose index entry a frame sent by [username] can change. *)
Definition touched (username : string) (message : gmap string string) : gset string :=
  match direct_receiver message with
  | Some to => {[username; to]}
  | None => ∅
  end.

(** The users whose index entry an operation other than [Connect] can
    change. *)
Definition touched_by (o : op) : gset string :=
  match o with
  | Receive username message => touched username message
  | _ => ∅
  end.

(** [username] is the sender or the receiver of a direct chat handled in
    the operation. *)
Definition exchanges (username : string) (o : op) : bool :=
  bool_decide (username ∈ touched_by o).

(** Every online user has an index entry. *)
Definition registry_indexed (w : world) : Prop :=
  ∀ x, is_Some (online w x) → is_Some (messages (manager w) !! x).

(** The index entry of the user, if there is one, holds no thread. *)
Definition inbox_empty (w : world) (username : string) : Prop :=
  ∀ inner, messages (manager w) !! username = Some inner → inner = ∅.

(** The two views of every pair of users agree. *)
Definition symmetric (w : world) : Prop :=
  ∀ a b, thread w a b = thread w b a.

(** Every operation of the sequence returns. *)
Fixpoint all_return (ops : list op) (w : world) : Prop :=
  match ops with
  | [] => True
  | o :: ops' => (step o w).1 = Return () ∧ all_return ops' (step o w).2
  end.

(** ** Notions used for the rest of the code *)

(** A field of the manager has the same value in both worlds. *)
Definition agree {T} (f : ConnectionManager → T) : relation world :=
  λ w w', f (manager w') = f (manager w).

(** The first profile a [Register] of the sequence carries for the
    username. *)
Fixpoint first_registered (u : string) (ops : list op) : option User :=
  match ops with
  | [] => None
  | Register user :: ops' =>
      if decide (username user = u) then Some user else first_registered u ops'
  | _ :: ops' => first_registered u ops'
  end.

(** The first field that the branch a frame takes reads and does not
    find, in the order the loop body reads them. *)
Definition missing_field (message : gmap string string) : option string :=
  match message !! "type" with
  | None => Some "type"
  | Some type =>
      if decide (type = "chat") then
        match message !! "receiver", message !! "content" with
        | None, _ => Some "receiver"
        | Some _, None => Some "content"
        | Some _, Some _ => None
        end
      else if decide (type = "create_group" ∨ type = "join_group") then
        match message !! "group_name" with
        | None => Some "group_name"
        | Some _ => None
        end
      else None
  end.

(** [self.groups] after the loop body has handled a frame of [username]. *)
Definition groups_after (username : string) (message : gmap string string)
    (gs : gmap string Group) : gmap string Group :=
  match message !! "type", message !! "group_name" with
  | Some type, Some group_name =>
      if decide (type = "create_group") then
        <[group_name := mkGroup group_name [username]]> gs
      else if decide (type = "join_group") then
        match gs !! group_name with
        | Some g => <[group_name := mkGroup (name g) (members g ++ [username])]> gs
        | None => gs
        end
      else gs
  | _, _ => gs
  end.

(** The group name a frame creates. *)
Definition created_by (message : gmap string string) : gset string :=
  match message !! "type", message !! "group_name" with
  | Some type, Some group_name =>
      if decide (type = "create_group") then {[group_name]} else ∅
  | _, _ => ∅
  end.

(** The group names of the [create_group] frames of the sequence. *)
Fixpoint created (ops : list op) : gset string :=
  match ops with
  | [] => ∅
  | Receive _ message :: ops' => created_by message ∪ created ops'
  | _ :: ops' => created ops'
  end.

(** Every group is stored under its own name and has a member. *)
Definition groups_ok (gs : gmap string Group) : Prop :=
  ∀ g grp, gs !! g = Some grp → name grp = g ∧ members grp ≠ [].

(** The sockets a group fan-out writes to: those of the members that are
    online, in member order. *)
Definition fan_out (w : world) (l : list string) : list nat :=
  omap (online w) l.

(** The ways one operation changes the conversation index: not at all, by
    a new empty entry, by one append on the sender's side, or by the
    appends on both sides. *)
Inductive grows (ms : gmap string (gmap string (list Message))) :
    gmap string (gmap string (list Message)) → Prop :=
| grows_same : grows ms ms
| grows_entry u : ms !! u = None → grows ms (<[u := ∅]> ms)
| grows_half a b c : grows ms (push a b (mkMessage a b c) ms)
| grows_both a b c :
    grows ms (push b a (mkMessage a b c) (push a b (mkMessage a b c) ms)).

(** Every thread of [ms] is a prefix of the same thread of [ms']. *)
Definition extends (ms ms' : gmap string (gmap string (list Message))) : Prop :=
  ∀ a b l, thread_in ms a b = Some l → ∃ l', thread_in ms' a b = Some (l ++ l').

(** Every message of the thread of [a] keyed by [b] is between [a] and
    [b]. *)
Definition labelled (ms : gmap string (gmap string (list Message))) : Prop :=
  ∀ a b l message, thread_in ms a b = Some l → message ∈ l →
    (sender message = a ∧ receiver message = b)
    ∨ (sender message = b ∧ receiver message = a).

(** * Properties *)

(** ** Insertion-ordered dictionaries *)

Section odict_facts.
Context {V : Type}.
Implicit Types (k : string) (v : V) (d : list (string * V)).

Lemma od_get_set_eq k v d : od_get k (od_set k v d) = Some v.
Proof.
  induction d as [|[k' v'] d IH]; simpl.
  - by rewrite decide_True.
  - destruct (decide (k = k')) as [->|Hne]; simpl.
    + by rewrite decide_True.
    + by rewrite decide_False.
Qed.

Lemma od_get_set_ne k k' v d : k ≠ k' → od_get k' (od_set k v d) = od_get k' d.
Proof.
  intros Hne. induction d as [|[k0 v0] d IH]; simpl.
  - by rewrite decide_False.
  - destruct (decide (k = k0)) as [->|Hk]; simpl.
    + by rewrite !decide_False.
    + destruct (decide (k' = k0)); [done | apply IH].
Qed.

Lemma od_get_del_eq k d : od_get k (od_del k d) = None.
Proof.
  induction d as [|[k' v'] d IH]; simpl; [done|].
  destruct (decide (k = k')); simpl; [done|]. by rewrite decide_False.
Qed.

Lemma od_get_del_ne k k' d : k ≠ k' → od_get k' (od_del k d) = od_get k' d.
Proof.
  intros Hne. induction d as [|[k0 v0] d IH]; simpl; [done|].
  destruct (decide (k = k0)) as [->|Hk]; simpl.
  - by rewrite decide_False.
  - destruct (decide (k' = k0)); [done | apply IH].
Qed.

Lemma od_get_None k d : od_get k d = None ↔ k ∉ od_keys d.
Proof.
  unfold od_keys. induction d as [|[k' v'] d IH]; simpl.
  - split; [intros _; apply not_elem_of_nil | done].
  - rewrite not_elem_of_cons. destruct (decide (k = k')) as [->|Hne].
    + split; [done | intros [? _]; done].
    + rewrite IH. tauto.
Qed.

Lemma od_get_is_Some k d : is_Some (od_get k d) ↔ k ∈ od_keys d.
Proof.
  rewrite <- not_eq_None_Some, od_get_None.
  split; [apply dec_stable | by intros ? ?].
Qed.

End odict_facts.

(** ** Running the monad *)

Ltac py := unfold py_bind, py_ret, raise, the_manager, update; simpl.

Lemma getitem_Some (message : gmap string string) k v w :
  message !! k = Some v → getitem message k w = (Return v, w).
Proof. intros H. unfold getitem. by rewrite H. Qed.

Lemma getitem_None (message : gmap string string) k w :
  message !! k = None → getitem message k w = (Raise (KeyError k), w).
Proof. intros H. unfold getitem. by rewrite H. Qed.

Lemma world_eta w : mkWorld (manager w) (failed w) (wire w) = w.
Proof. by destruct w. Qed.

(** ** Connection registry *)

Lemma disconnect_present username websocket w :
  online w username = Some websocket →
  disconnect username w =
    (Return (), mkWorld (set_active_connections
                           (od_del username (active_connections (manager w))) (manager w))
                        (failed w) (wire w)).
Proof. unfold online, disconnect. py. by intros ->. Qed.

Lemma disconnect_absent username w :
  online w username = None → disconnect username w = (Raise (KeyError username), w).
Proof. unfold online, disconnect. py. by intros ->. Qed.

(** C3, as the code has it: [disconnect] removes the registry entry of a
    registered username and touches nothing else; for a username without
    an entry it raises [KeyError] and leaves the world as it was. *)
Theorem disconnect_removes_or_raises (username : string) (w : world) :
  match online w username with
  | Some _ =>
      ∃ w', disconnect username w = (Return (), w')
            ∧ online w' username = None
            ∧ (∀ other, other ≠ username → online w' other = online w other)
            ∧ users (manager w') = users (manager w)
            ∧ messages (manager w') = messages (manager w)
            ∧ groups (manager w') = groups (manager w)
            ∧ failed w' = failed w ∧ wire w' = wire w
  | None => disconnect username w = (Raise (KeyError username), w)
  end.
Proof.
  destruct (online w username) as [ws|] eqn:Hon.
  - eexists. split; [by eapply disconnect_present|].
    unfold online; simpl. split; [apply od_get_del_eq|].
    split; [|done]. intros other Hne. by apply od_get_del_ne.
  - by apply disconnect_absent.
Qed.

(** C3, as stated, fails: the second [disconnect] of a username raises. *)
Lemma disconnect_twice_raises :
  let w := run [Connect "bob" 1] init in
  ∃ w1, disconnect "bob" w = (Return (), w1)
        ∧ disconnect "bob" w1 = (Raise (KeyError "bob"), w1)
        ∧ (disconnect "bob" w1).1 ≠ Return ().
Proof. eexists. split; [reflexivity|]. split; [reflexivity|]. simpl. discriminate. Qed.

Lemma send_personal_message_online message username websocket w :
  online w username = Some websocket →
  send_personal_message message username w = send_text websocket message w.
Proof. unfold online, send_personal_message. py. by intros ->. Qed.

Lemma send_personal_message_offline message username w :
  online w username = None →
  send_personal_message message username w = (Return (), w).
Proof. unfold online, send_personal_message. py. by intros ->. Qed.

Lemma send_text_open websocket message w :
  failed w !! websocket = None →
  send_text websocket message w =
    (Return (), mkWorld (manager w) (failed w) (wire w ++ [(websocket, message)])).
Proof. intros H. unfold send_text. by rewrite H. Qed.

Lemma send_text_failed websocket message e w :
  failed w !! websocket = Some e →
  send_text websocket message w = (Raise e, w).
Proof. intros H. unfold send_text. by rewrite H. Qed.

(** C5, as the code has it: [send_personal_message] returns [None] in both
    cases.  For a registered username whose socket takes the write it
    appends the payload to that socket's frames; for an offline username it
    writes nothing and raises nothing. *)
Theorem send_personal_message_returns_None (message : payload) (username : string) (w : world) :
  (∀ websocket, online w username = Some websocket → failed w !! websocket = None) →
  send_personal_message message username w =
    (Return (),
     mkWorld (manager w) (failed w)
             (wire w ++ match online w username with
                        | Some websocket => [(websocket, message)]
                        | None => []
                        end)).
Proof.
  intros Hopen. destruct (online w username) as [ws|] eqn:Hon.
  - rewrite (send_personal_message_online _ _ ws) by done.
    apply send_text_open. by apply Hopen.
  - rewrite send_personal_message_offline by done.
    by rewrite app_nil_r, world_eta.
Qed.

Lemma send_personal_message_returns_None_witness :
  send_personal_message (system_payload "x") "alice" (run [Connect "alice" 1] init) =
    (Return (), mkWorld (manager (run [Connect "alice" 1] init)) ∅
                        [(1, system_payload "x")]).
Proof.
  apply (send_personal_message_returns_None (system_payload "x") "alice"
           (run [Connect "alice" 1] init)).
  intros ws _. reflexivity.
Defined.

(** C5, as stated, fails: the result for an online username and for an
    offline one is the same value, so no boolean read off the result tells
    delivery from no delivery. *)
Lemma send_personal_message_no_flag :
  let w := run [Connect "alice" 1] init in
  let hi := chat_payload "bob" "hi" "alice" in
  online w "alice" = Some 1 ∧ online w "carol" = None
  ∧ (send_personal_message hi "alice" w).1 = Return ()
  ∧ (send_personal_message hi "carol" w).1 = Return ()
  ∧ ¬ ∃ delivered : outcome unit → bool,
        delivered (send_personal_message hi "alice" w).1 = true
        ∧ delivered (send_personal_message hi "carol" w).1 = false.
Proof.
  repeat split; try reflexivity.
  intros [delivered [H1 H2]]. vm_compute in H1, H2. congruence.
Qed.

(** ** Group registry *)

Lemma on_receive_create_group username message group_name w :
  message !! "type" = Some "create_group" →
  message !! "group_name" = Some group_name →
  on_receive username message w =
    (Return (), mkWorld (set_groups (<[group_name := mkGroup group_name [username]]>
                                       (groups (manager w))) (manager w))
                        (failed w) (wire w)).
Proof.
  intros Ht Hg. unfold on_receive. py.
  rewrite (getitem_Some _ _ _ _ Ht).
  rewrite decide_False by discriminate. rewrite decide_True by done.
  by rewrite (getitem_Some _ _ _ _ Hg).
Qed.

Lemma on_receive_join_group username message group_name w :
  message !! "type" = Some "join_group" →
  message !! "group_name" = Some group_name →
  on_receive username message w =
    match groups (manager w) !! group_name with
    | Some g =>
        (Return (), mkWorld (set_groups (<[group_name := mkGroup (name g) (members g ++ [username])]>
                                           (groups (manager w))) (manager w))
                            (failed w) (wire w))
    | None => (Return (), w)
    end.
Proof.
  intros Ht Hg. unfold on_receive. py.
  rewrite (getitem_Some _ _ _ _ Ht).
  rewrite !decide_False by discriminate. rewrite decide_True by done.
  rewrite (getitem_Some _ _ _ _ Hg).
  by destruct (groups (manager w) !! group_name).
Qed.

Lemma occurrences_app u l1 l2 :
  occurrences u (l1 ++ l2) = occurrences u l1 + occurrences u l2.
Proof. unfold occurrences. by rewrite filter_app, length_app. Qed.

Lemma occurrences_self u : occurrences u [u] = 1.
Proof. unfold occurrences. by rewrite filter_cons_True. Qed.

(** C1, as the code has it: a [join_group] event for an existing group
    appends the sender to the end of the member list whether or not the
    sender is a member already, so every join raises the number of
    occurrences of the sender by one; the other groups and the rest of the
    world stay as they were. *)
Theorem join_group_appends (username group_name : string)
    (message : gmap string string) (w : world) :
  message !! "type" = Some "join_group" →
  message !! "group_name" = Some group_name →
  is_Some (groups (manager w) !! group_name) →
  ∃ w', on_receive username message w = (Return (), w')
        ∧ members_of w' group_name = members_of w group_name ++ [username]
        ∧ occurrences username (members_of w' group_name)
          = S (occurrences username (members_of w group_name))
        ∧ (∀ other, other ≠ group_name → members_of w' other = members_of w other)
        ∧ wire w' = wire w
        ∧ active_connections (manager w') = active_connections (manager w)
        ∧ messages (manager w') = messages (manager w).
Proof.
  intros Ht Hg [g Hgrp].
  rewrite (on_receive_join_group _ _ _ _ Ht Hg), Hgrp.
  eexists. split; [reflexivity|].
  assert (Hm : members_of
      (mkWorld (set_groups (<[group_name := mkGroup (name g) (members g ++ [username])]>
                              (groups (manager w))) (manager w)) (failed w) (wire w))
      group_name = members_of w group_name ++ [username]).
  { unfold members_of; simpl. by rewrite lookup_insert_eq, Hgrp. }
  split; [exact Hm|]. split.
  { rewrite Hm, occurrences_app, occurrences_self. lia. }
  split; [|done].
  intros other Hne. unfold members_of; simpl. by rewrite lookup_insert_ne.
Qed.

Lemma join_group_appends_witness :
  ∃ w', on_receive "bob" (join_group "g1")
          (run [Connect "alice" 1; Receive "alice" (create_group "g1")] init) = (Return (), w')
        ∧ members_of w' "g1" = ["alice"; "bob"].
Proof.
  destruct (join_group_appends "bob" "g1" (join_group "g1")
              (run [Connect "alice" 1; Receive "alice" (create_group "g1")] init))
    as (w' & Hrun & Hmem & _).
  - reflexivity.
  - reflexivity.
  - vm_compute. eauto.
  - exists w'. split; [exact Hrun|]. rewrite Hmem. reflexivity.
Defined.

(** C1, as stated, fails: after two joins of the same user the member list
    holds that user twice. *)
Lemma join_twice_duplicates :
  let w := run [Connect "alice" 1; Connect "bob" 2;
                Receive "alice" (create_group "g1");
                Receive "bob" (join_group "g1"); Receive "bob" (join_group "g1")] init in
  members_of w "g1" = ["alice"; "bob"; "bob"]
  ∧ occurrences "bob" (members_of w "g1") = 2
  ∧ ¬ NoDup (members_of w "g1").
Proof.
  split; [reflexivity|]. split; [reflexivity|].
  intros H. vm_compute in H.
  apply NoDup_cons in H as [_ H]. apply NoDup_cons in H as [H _].
  apply H. apply list_elem_of_here.
Qed.

(** C2, as the code has it: a [create_group] event stores a new group
    whose only member is the sender under the given name, whether or not
    the name exists; the members an existing group had are dropped, and
    the membership is what it was only when it was the sender alone. *)
Theorem create_group_resets_members (username group_name : string)
    (message : gmap string string) (w : world) :
  message !! "type" = Some "create_group" →
  message !! "group_name" = Some group_name →
  ∃ w', on_receive username message w = (Return (), w')
        ∧ groups (manager w') !! group_name = Some (mkGroup group_name [username])
        ∧ members_of w' group_name = [username]
        ∧ (members_of w' group_name = members_of w group_name
           ↔ members_of w group_name = [username])
        ∧ (∀ other, other ≠ group_name → members_of w' other = members_of w other)
        ∧ wire w' = wire w.
Proof.
  intros Ht Hg. rewrite (on_receive_create_group _ _ _ _ Ht Hg).
  eexists. split; [reflexivity|].
  assert (Hm : members_of
      (mkWorld (set_groups (<[group_name := mkGroup group_name [username]]>
                              (groups (manager w))) (manager w)) (failed w) (wire w))
      group_name = [username]).
  { unfold members_of; simpl. by rewrite lookup_insert_eq. }
  split; [simpl; apply lookup_insert_eq|].
  split; [exact Hm|]. split; [rewrite Hm; split; congruence|].
  split; [|done].
  intros other Hne. unfold members_of; simpl. by rewrite lookup_insert_ne.
Qed.

Lemma create_group_resets_members_witness :
  ∃ w', on_receive "alice" (create_group "g1")
          (run [Connect "alice" 1; Connect "bob" 2; Receive "alice" (create_group "g1");
                Receive "bob" (join_group "g1")] init) = (Return (), w')
        ∧ members_of w' "g1" = ["alice"].
Proof.
  destruct (create_group_resets_members "alice" "g1" (create_group "g1")
              (run [Connect "alice" 1; Connect "bob" 2; Receive "alice" (create_group "g1");
                    Receive "bob" (join_group "g1")] init))
    as (w' & Hrun & _ & Hmem & _).
  - reflexivity.
  - reflexivity.
  - exists w'. split; [exact Hrun | exact Hmem].
Defined.

(** C2, as stated, fails: creating a group that exists drops its members. *)
Lemma create_existing_group_drops_members :
  let w := run [Connect "alice" 1; Connect "bob" 2;
                Receive "alice" (create_group "g1"); Receive "bob" (join_group "g1")] init in
  let w' := (on_receive "alice" (create_group "g1") w).2 in
  members_of w "g1" = ["alice"; "bob"]
  ∧ members_of w' "g1" = ["alice"]
  ∧ members_of w' "g1" ≠ members_of w "g1".
Proof. split; [reflexivity|]. split; [reflexivity|]. vm_compute. discriminate. Qed.

(** ** Broadcast *)

Lemma written_app w m f l : written w (mkWorld m f (wire w ++ l)) = l.
Proof. unfold written; simpl. by rewrite drop_app_length. Qed.

Lemma for_each_send_open message l w :
  (∀ ws, ws ∈ l → failed w !! ws = None) →
  for_each (λ connection, send_text connection message) l w =
    (Return (), mkWorld (manager w) (failed w) (wire w ++ ((λ ws, (ws, message)) <$> l))).
Proof.
  revert w. induction l as [|ws l IH]; intros w Hopen; simpl.
  - py. by rewrite app_nil_r, world_eta.
  - unfold py_bind. rewrite send_text_open by (apply Hopen, list_elem_of_here).
    rewrite IH; simpl.
    + by rewrite <- app_assoc.
    + intros x Hx. by apply Hopen, list_elem_of_further.
Qed.

Lemma for_each_send_failure message before ws e after w :
  (∀ x, x ∈ before → failed w !! x = None) → failed w !! ws = Some e →
  for_each (λ connection, send_text connection message) (before ++ ws :: after) w =
    (Raise e,
     mkWorld (manager w) (failed w) (wire w ++ ((λ x, (x, message)) <$> before))).
Proof.
  revert w. induction before as [|b before IH]; intros w Hopen Hbad; simpl.
  - unfold py_bind. rewrite (send_text_failed _ _ e) by done.
    by rewrite app_nil_r, world_eta.
  - unfold py_bind. rewrite send_text_open by (apply Hopen, list_elem_of_here).
    rewrite IH; simpl.
    + by rewrite <- app_assoc.
    + intros x Hx. by apply Hopen, list_elem_of_further.
    + done.
Qed.

Lemma frames_to_fmap ws message (l : list nat) :
  frames_to ws ((λ x, (x, message)) <$> l) = length (filter (λ x, x = ws) l).
Proof.
  unfold frames_to. induction l as [|x l IH]; [done|].
  rewrite fmap_cons. destruct (decide (x = ws)) as [->|Hne].
  - rewrite !filter_cons_True by done. simpl. by rewrite IH.
  - by rewrite !filter_cons_False.
Qed.

Lemma filter_eq_absent (ws : nat) (l : list nat) :
  ws ∉ l → filter (λ x, x = ws) l = [].
Proof.
  induction l as [|x l IH]; [done|]. intros [Hne Hl]%not_elem_of_cons.
  rewrite filter_cons_False by congruence. by apply IH.
Qed.

Lemma filter_eq_NoDup (ws : nat) (l : list nat) :
  NoDup l → ws ∈ l → length (filter (λ x, x = ws) l) = 1.
Proof.
  induction 1 as [|x l Hx Hnd IH]; [by intros ?%elem_of_nil|].
  intros [->|Hin]%elem_of_cons.
  - rewrite filter_cons_True by done. simpl. by rewrite filter_eq_absent.
  - rewrite filter_cons_False; [by apply IH|]. intros ->. done.
Qed.

(** C7, as the code has it: [broadcast] writes to the registered sockets
    in registry order until a write fails.  When every socket before a
    point takes the write, those sockets have each been written the
    payload; if that is the whole registry the call returns, every
    registered socket has got the payload once per registration (exactly
    once when the sockets are distinct) and no other socket has got
    anything; if the next socket fails, the call raises there and the
    sockets after it get nothing. *)
Theorem broadcast_until_first_failure (message : payload) (w : world) (before : list nat) :
  (∀ ws, ws ∈ before → failed w !! ws = None) →
  let w' := mkWorld (manager w) (failed w) (wire w ++ ((λ ws, (ws, message)) <$> before)) in
  (od_values (active_connections (manager w)) = before →
     broadcast message w = (Return (), w')
     ∧ written w w' = (λ ws, (ws, message)) <$> before
     ∧ (NoDup before → ∀ ws, ws ∈ before → frames_to ws (written w w') = 1)
     ∧ (∀ ws, ws ∉ before → frames_to ws (written w w') = 0))
  ∧ (∀ ws e after,
       od_values (active_connections (manager w)) = before ++ ws :: after →
       failed w !! ws = Some e →
       broadcast message w = (Raise e, w')
       ∧ written w w' = (λ ws, (ws, message)) <$> before).
Proof.
  intros Hopen w'. split.
  - intros Hall. unfold broadcast. py. rewrite Hall.
    split; [by apply for_each_send_open|].
    unfold w'. rewrite written_app. split; [done|]. split.
    + intros Hnd ws Hin. rewrite frames_to_fmap. by apply filter_eq_NoDup.
    + intros ws Hout. by rewrite frames_to_fmap, filter_eq_absent.
  - intros ws e after Hsplit Hbad. unfold broadcast. py. rewrite Hsplit.
    split; [by apply for_each_send_failure|].
    unfold w'. by rewrite written_app.
Qed.

Lemma broadcast_until_first_failure_witness :
  let w := run [Connect "alice" 1; Connect "bob" 2; Connect "carol" 3;
                Fail 2 (RuntimeError "closed")] init in
  broadcast (system_payload "x") w =
    (Raise (RuntimeError "closed"),
     mkWorld (manager w) (failed w) [(1, system_payload "x")]).
Proof.
  intros w.
  refine (proj1 (proj2 (broadcast_until_first_failure (system_payload "x") w [1] _)
                   2 (RuntimeError "closed") [3] _ _)).
  - intros ws ->%list_elem_of_singleton. reflexivity.
  - reflexivity.
  - reflexivity.
Defined.

(** C7, as stated, fails: a failed write on the first socket leaves a later
    registered socket, whose transport is sound, without the payload. *)
Lemma broadcast_aborts_on_failure :
  let w := run [Connect "alice" 1; Connect "bob" 2; Fail 1 (RuntimeError "closed")] init in
  let r := broadcast (system_payload "x") w in
  online w "bob" = Some 2 ∧ failed w !! 2 = None
  ∧ r.1 = Raise (RuntimeError "closed")
  ∧ frames_to 2 (written w r.2) = 0.
Proof. repeat split. Qed.

(** ** Conversation store *)

Lemma py_bind_assoc {A B C} (c1 : Py A) (c2 : Py B) (k : Py C) w :
  (c1 ;; c2 ;; k) w = ((c1 ;; c2) ;; k) w.
Proof.
  unfold py_bind. destruct (c1 w) as [[a|e] w1]; [|done].
  by destruct (c2 w1) as [[b|e] w2].
Qed.

Lemma push_run a b message w :
  (thread_setdefault a b ;; thread_append a b message) w =
    match messages (manager w) !! a with
    | Some _ => (Return (), with_messages (push a b message (messages (manager w))) w)
    | None => (Raise (KeyError a), w)
    end.
Proof.
  unfold thread_setdefault, thread_append, messages_getitem, push, with_messages. py.
  destruct (messages (manager w) !! a) as [inner|] eqn:Ha; simpl; [|done].
  destruct (inner !! b) as [l|] eqn:Hb; simpl.
  - rewrite Ha; simpl. rewrite Hb. reflexivity.
  - rewrite Ha; simpl. rewrite lookup_insert_eq; simpl. rewrite lookup_insert_eq.
    simpl. by rewrite !insert_insert_eq.
Qed.

Lemma lookup_push_is_Some a b message ms x :
  is_Some (push a b message ms !! x) ↔ is_Some (ms !! x).
Proof.
  unfold push. destruct (ms !! a) as [inner|] eqn:Ha; [|done].
  destruct (decide (a = x)) as [<-|Hne].
  - rewrite lookup_insert_eq, Ha. split; eauto.
  - by rewrite lookup_insert_ne.
Qed.

Lemma lookup_push_None a b message ms x :
  push a b message ms !! x = None ↔ ms !! x = None.
Proof. rewrite !eq_None_not_Some. by rewrite lookup_push_is_Some. Qed.

Lemma lookup_push_ne a b message ms x :
  x ≠ a → push a b message ms !! x = ms !! x.
Proof.
  intros Hne. unfold push. destruct (ms !! a); [|done]. by rewrite lookup_insert_ne.
Qed.

Lemma thread_in_push_eq a b message ms :
  is_Some (ms !! a) →
  thread_in (push a b message ms) a b = Some (default [] (thread_in ms a b) ++ [message]).
Proof.
  intros [inner Ha]. unfold thread_in, push. rewrite Ha, lookup_insert_eq; simpl.
  by rewrite lookup_insert_eq.
Qed.

Lemma thread_in_push_ne a b message ms a' b' :
  (a', b') ≠ (a, b) → thread_in (push a b message ms) a' b' = thread_in ms a' b'.
Proof.
  intros Hne. unfold thread_in, push. destruct (ms !! a) as [inner|] eqn:Ha; [|done].
  destruct (decide (a = a')) as [<-|Ha'].
  - rewrite lookup_insert_eq, Ha; simpl. rewrite lookup_insert_ne; [done|]. congruence.
  - by rewrite lookup_insert_ne.
Qed.

Lemma store_message_run sender receiver content w :
  store_message sender receiver content w =
    let message := mkMessage sender receiver content in
    let ms := messages (manager w) in
    match ms !! sender with
    | None => (Raise (KeyError sender), w)
    | Some _ =>
        match ms !! receiver with
        | None => (Raise (KeyError receiver), with_messages (push sender receiver message ms) w)
        | Some _ =>
            (Return (),
             with_messages (push receiver sender message (push sender receiver message ms)) w)
        end
    end.
Proof.
  unfold store_message. rewrite py_bind_assoc.
  unfold py_bind at 1. rewrite push_run. simpl.
  destruct (messages (manager w) !! sender) as [inner|] eqn:Hs; [|done].
  rewrite push_run. simpl.
  destruct (messages (manager w) !! receiver) as [inner'|] eqn:Hr.
  - assert (is_Some (push sender receiver (mkMessage sender receiver content)
                       (messages (manager w)) !! receiver)) as [x ->]; [|done].
    apply lookup_push_is_Some. eauto.
  - assert (push sender receiver (mkMessage sender receiver content)
              (messages (manager w)) !! receiver = None) as ->; [|done].
    by apply lookup_push_None.
Qed.

Lemma thread_with_messages ms w a b : thread (with_messages ms w) a b = thread_in ms a b.
Proof. reflexivity. Qed.

Lemma thread_thread_in w a b : thread w a b = thread_in (messages (manager w)) a b.
Proof. reflexivity. Qed.

(** What [store_message] leaves behind when both users have an index
    entry: one copy of the message at the end of each of the two threads
    (two copies at the end of the one thread of a user writing to
    themselves), every other thread as it was. *)
Lemma store_message_ok sender receiver content w :
  is_Some (messages (manager w) !! sender) →
  is_Some (messages (manager w) !! receiver) →
  let message := mkMessage sender receiver content in
  let copies := if decide (sender = receiver) then [message; message] else [message] in
  ∃ w', store_message sender receiver content w = (Return (), w')
        ∧ thread w' sender receiver = Some (default [] (thread w sender receiver) ++ copies)
        ∧ thread w' receiver sender = Some (default [] (thread w receiver sender) ++ copies)
        ∧ (∀ a b, (a, b) ≠ (sender, receiver) → (a, b) ≠ (receiver, sender) →
             thread w' a b = thread w a b)
        ∧ (∀ x, is_Some (messages (manager w') !! x) ↔ is_Some (messages (manager w) !! x))
        ∧ active_connections (manager w') = active_connections (manager w)
        ∧ users (manager w') = users (manager w)
        ∧ groups (manager w') = groups (manager w)
        ∧ failed w' = failed w ∧ wire w' = wire w.
Proof.
  intros Hs Hr message copies. rewrite store_message_run; simpl.
  destruct Hs as [inner_s Hs]. destruct Hr as [inner_r Hr]. rewrite Hs, Hr.
  eexists. split; [reflexivity|]. fold message.
  assert (Hs' : is_Some (push sender receiver message (messages (manager w)) !! receiver))
    by (apply lookup_push_is_Some; eauto).
  assert (Hs0 : is_Some (messages (manager w) !! sender)) by eauto.
  rewrite !thread_with_messages, !thread_thread_in.
  split; [|split; [|split; [|split; [|done]]]].
  - unfold copies. destruct (decide (sender = receiver)) as [<-|Hne].
    + rewrite thread_in_push_eq by done. rewrite thread_in_push_eq by done.
      simpl. by rewrite <- app_assoc.
    + rewrite thread_in_push_ne by congruence. by rewrite thread_in_push_eq.
  - unfold copies. destruct (decide (sender = receiver)) as [<-|Hne].
    + rewrite thread_in_push_eq by done. rewrite thread_in_push_eq by done.
      simpl. by rewrite <- app_assoc.
    + rewrite thread_in_push_eq by done. by rewrite thread_in_push_ne by congruence.
  - intros a b H1 H2. rewrite thread_with_messages.
    by rewrite !thread_in_push_ne.
  - intros x. simpl. by rewrite !lookup_push_is_Some.
Qed.

(** ** Direct chat *)

Lemma on_receive_direct username message to body w :
  message !! "type" = Some "chat" →
  message !! "receiver" = Some to →
  message !! "content" = Some body →
  to ≠ "main" → String.prefix "group:" to = false →
  on_receive username message w =
    (send_personal_message (chat_payload username body to) to ;;
     store_message username to body) w.
Proof.
  intros Ht Hr Hc Hmain Hgroup. unfold on_receive.
  unfold py_bind at 1. rewrite (getitem_Some _ _ _ _ Ht).
  rewrite decide_True by done.
  unfold py_bind at 1. rewrite (getitem_Some _ _ _ _ Hr).
  rewrite decide_False by done. rewrite Hgroup.
  unfold py_bind at 1. by rewrite (getitem_Some _ _ _ _ Hc).
Qed.

(** C6, as the code has it: for a direct chat whose content is a string
    (the only content [Message] takes), whose sender and receiver both
    have a conversation-index entry (each has connected at least once)
    and whose live write, if there is one, is taken by the socket, the
    handler writes the chat envelope to the receiver's socket exactly when
    the receiver is online, and appends the message to both threads of the
    pair whether or not it wrote anything. *)
Theorem direct_chat_delivers_and_records (username to body : string)
    (message : gmap string string) (w : world) :
  message !! "type" = Some "chat" →
  message !! "receiver" = Some to →
  message !! "content" = Some body →
  to ≠ "main" → String.prefix "group:" to = false →
  is_Some (messages (manager w) !! username) →
  is_Some (messages (manager w) !! to) →
  (∀ websocket, online w to = Some websocket → failed w !! websocket = None) →
  let copies := if decide (username = to)
                then [mkMessage username to body; mkMessage username to body]
                else [mkMessage username to body] in
  ∃ w', on_receive username message w = (Return (), w')
        ∧ written w w' = match online w to with
                         | Some websocket => [(websocket, chat_payload username body to)]
                         | None => []
                         end
        ∧ thread w' username to = Some (default [] (thread w username to) ++ copies)
        ∧ thread w' to username = Some (default [] (thread w to username) ++ copies).
Proof.
  intros Ht Hr Hc Hmain Hgroup Hu Hto Hopen copies.
  rewrite (on_receive_direct _ _ _ _ _ Ht Hr Hc Hmain Hgroup).
  unfold py_bind.
  assert (Hsend : send_personal_message (chat_payload username body to) to w =
                    (Return (),
                     mkWorld (manager w) (failed w)
                             (wire w ++ match online w to with
                                        | Some websocket =>
                                            [(websocket, chat_payload username body to)]
                                        | None => []
                                        end))).
  { destruct (online w to) as [ws|] eqn:Hon.
    - rewrite (send_personal_message_online _ _ ws) by done.
      apply send_text_open. by apply Hopen.
    - rewrite send_personal_message_offline by done.
      by rewrite app_nil_r, world_eta. }
  rewrite Hsend. set (w1 := mkWorld (manager w) (failed w) _).
  destruct (store_message_ok username to body w1 Hu Hto)
    as (w' & Hrun & H1 & H2 & _ & _ & _ & _ & _ & _ & Hwire).
  exists w'. split; [exact Hrun|]. split; [|split; [exact H1 | exact H2]].
  unfold written. rewrite Hwire. unfold w1; simpl. by rewrite drop_app_length.
Qed.

Lemma direct_chat_delivers_and_records_witness :
  let w := run [Connect "alice" 1; Connect "bob" 2; Disconnect "bob"] init in
  ∃ w', on_receive "alice" (chat "bob" "hi") w = (Return (), w')
        ∧ written w w' = []
        ∧ thread w' "bob" "alice" = Some [mkMessage "alice" "bob" "hi"].
Proof.
  intros w.
  destruct (direct_chat_delivers_and_records "alice" "bob" "hi" (chat "bob" "hi") w)
    as (w' & Hrun & Hwritten & _ & Hthread).
  - reflexivity.
  - reflexivity.
  - reflexivity.
  - discriminate.
  - reflexivity.
  - vm_compute. eauto.
  - vm_compute. eauto.
  - intros ws H. vm_compute in H. discriminate.
  - exists w'. split; [exact Hrun|]. split; [exact Hwritten | exact Hthread].
Defined.

(** C6, as stated, fails: a direct chat to a username that has never
    connected raises in the handler and the receiver's side holds no
    record of it; and when the live write to an online receiver fails,
    nothing is recorded on either side. *)
Lemma direct_chat_not_always_recorded :
  let w := run [Connect "alice" 1] init in
  let r := on_receive "alice" (chat "bob" "hi") w in
  let v := run [Connect "alice" 1; Connect "bob" 2; Fail 2 (RuntimeError "closed")] init in
  let s := on_receive "alice" (chat "bob" "hi") v in
  (r.1 = Raise (KeyError "bob")
   ∧ thread r.2 "bob" "alice" = None
   ∧ (get_inbox "bob" r.2).1 = Raise (HTTPException 404 "User not found"))
  ∧ (online v "bob" = Some 2
     ∧ s.1 = Raise (RuntimeError "closed")
     ∧ thread s.2 "alice" "bob" = None
     ∧ thread s.2 "bob" "alice" = None).
Proof. repeat split. Qed.

(** ** Relations kept by every operation *)

Section keeps.
Context (P : relation world) `{!PreOrder P}.

Lemma keeps_ret {A} (a : A) : keeps P (py_ret a).
Proof. intros w. reflexivity. Qed.


Lemma keeps_the_manager : keeps P the_manager.
Proof. intros w. reflexivity. Qed.

Lemma keeps_getitem message k : keeps P (getitem message k).
Proof. intros w. unfold getitem. destruct (message !! k); reflexivity. Qed.

Lemma keeps_bind {A B} (c : Py A) (k : A → Py B) :
  keeps P c → (∀ a, keeps P (k a)) → keeps P (py_bind c k).
Proof.
  intros Hc Hk w. unfold py_bind. specialize (Hc w).
  destruct (c w) as [[a|e] w1]; simpl in *; [|done].
  etrans; [exact Hc | apply Hk].
Qed.

Lemma keeps_bind_manager {B} (k : ConnectionManager → Py B) :
  (∀ w, P w (k (manager w) w).2) → keeps P (py_bind the_manager k).
Proof. intros Hk w. apply Hk. Qed.

Lemma keeps_bind_getitem {B} message key (k : string → Py B) :
  (∀ v, message !! key = Some v → keeps P (k v)) → keeps P (py_bind (getitem message key) k).
Proof.
  intros Hk w. unfold py_bind, getitem.
  destruct (message !! key) as [v|] eqn:Hv; simpl; [by apply Hk | reflexivity].
Qed.

Lemma keeps_for_each {A} (f : A → Py unit) l : (∀ x, keeps P (f x)) → keeps P (for_each f l).
Proof.
  intros Hf. induction l as [|x l IH]; simpl; [apply keeps_ret|].
  apply keeps_bind; [apply Hf | intros _; exact IH].
Qed.

Lemma keeps_comprehension {A B} (f : A → Py B) l :
  (∀ x, keeps P (f x)) → keeps P (comprehension f l).
Proof.
  intros Hf. induction l as [|x l IH]; simpl; [apply keeps_ret|].
  apply keeps_bind; [apply Hf | intros y].
  apply keeps_bind; [exact IH | intros ys; apply keeps_ret].
Qed.
End keeps.

Lemma keeps_weaken (P Q : relation world) {A} (c : Py A) :
  (∀ w w', P w w' → Q w w') → keeps P c → keeps Q c.
Proof. intros HPQ Hc w. apply HPQ, Hc. Qed.

#[global] Instance only_wire_preorder : PreOrder only_wire.
Proof.
  split.
  - by intros w.
  - intros w1 w2 w3 [H1 H2] [H3 H4]. split; congruence.
Qed.

#[global] Instance touches_preorder X : PreOrder (touches X).
Proof.
  split.
  - by intros w.
  - intros w1 w2 w3 (H1 & H2 & H3) (H4 & H5 & H6). split; [|split].
    + intros x Hx. by apply H1, H4.
    + congruence.
    + intros x Hx. rewrite H6 by done. by apply H3.
Qed.

Lemma only_wire_touches X w w' : only_wire w w' → touches X w w'.
Proof. intros [Hm Hf]. unfold touches, online. by rewrite Hm. Qed.

Lemma touches_mono X Y w w' : X ⊆ Y → touches X w w' → touches Y w w'.
Proof.
  intros HXY (Hon & Hdom & Hsame). split; [done|]. split; [done|].
  intros x Hx. apply Hsame. intros Hin. by apply Hx, HXY.
Qed.

Lemma keeps_send_text ws message : keeps only_wire (send_text ws message).
Proof. intros w. unfold send_text. by destruct (failed w !! ws). Qed.

Lemma keeps_send_personal_message message username :
  keeps only_wire (send_personal_message message username).
Proof.
  apply keeps_bind_manager. intros w.
  destruct (od_get username _); [apply keeps_send_text | reflexivity].
Qed.

Lemma keeps_broadcast message : keeps only_wire (broadcast message).
Proof.
  apply keeps_bind_manager. intros w.
  apply keeps_for_each; [apply _|]; intros ws. apply keeps_send_text.
Qed.

Lemma keeps_send_to_group message group_name :
  keeps only_wire (send_to_group message group_name).
Proof.
  apply keeps_bind_manager. intros w.
  destruct (groups (manager w) !! group_name); [|reflexivity].
  apply keeps_for_each; [apply _|]; intros member. apply keeps_send_personal_message.
Qed.

Lemma keeps_store_message sender receiver content :
  keeps (touches {[sender; receiver]}) (store_message sender receiver content).
Proof.
  intros w. rewrite store_message_run; simpl.
  destruct (messages (manager w) !! sender) as [inner_s|] eqn:Hs; [|reflexivity].
  destruct (messages (manager w) !! receiver) as [inner_r|] eqn:Hr; simpl.
  - split; [done|]. split; simpl.
    + apply set_eq. intros x. by rewrite !elem_of_dom, !lookup_push_is_Some.
    + intros x Hx. rewrite !lookup_push_ne; [done|set_solver..].
  - split; [done|]. split; simpl.
    + apply set_eq. intros x. by rewrite !elem_of_dom, !lookup_push_is_Some.
    + intros x Hx. rewrite !lookup_push_ne; [done|set_solver].
Qed.

Lemma keeps_on_receive username message :
  keeps (touches (touched username message)) (on_receive username message).
Proof.
  unfold on_receive.
  apply keeps_bind_getitem; [apply _|]. intros type Ht.
  destruct (decide (type = "chat")) as [->|Hchat].
  - apply keeps_bind_getitem; [apply _|]. intros to Hr.
    destruct (decide (to = "main")) as [->|Hmain].
    + apply keeps_bind_getitem; [apply _|]. intros body _.
      eapply keeps_weaken; [apply only_wire_touches | apply keeps_broadcast].
    + destruct (String.prefix "group:" to) eqn:Hp.
      * apply keeps_bind_getitem; [apply _|]. intros body _.
        eapply keeps_weaken; [apply only_wire_touches | apply keeps_send_to_group].
      * assert (touched username message = {[username; to]}) as ->.
        { unfold touched, direct_receiver. rewrite Ht, Hr.
          rewrite decide_True by done. rewrite decide_False by done. by rewrite Hp. }
        apply keeps_bind_getitem; [apply _|]. intros body _.
        apply keeps_bind; [apply _| |intros _; apply keeps_store_message].
        eapply keeps_weaken; [apply only_wire_touches | apply keeps_send_personal_message].
  - destruct (decide (type = "create_group")).
    { apply keeps_bind_getitem; [apply _|]. intros g _.
      apply keeps_bind_manager. intros w. by split. }
    destruct (decide (type = "join_group")); [|apply keeps_ret; apply _].
    apply keeps_bind_getitem; [apply _|]. intros g _.
    apply keeps_bind_manager. intros w.
    destruct (groups (manager w) !! g); [by split | reflexivity].
Qed.

Lemma connect_run username websocket w :
  connect username websocket w =
    match failed w !! websocket with
    | Some e => (Raise e, w)
    | None =>
        (Return (),
         mkWorld (mkManager (od_set username websocket (active_connections (manager w)))
                            (users (manager w))
                            (match messages (manager w) !! username with
                             | None => <[username := ∅]> (messages (manager w))
                             | Some _ => messages (manager w)
                             end)
                            (groups (manager w)))
                 (failed w) (wire w))
    end.
Proof.
  unfold connect, accept. py. destruct (failed w !! websocket); [done|].
  by destruct (messages (manager w) !! username).
Qed.

Lemma keeps_disconnect username : keeps (touches ∅) (disconnect username).
Proof.
  apply keeps_bind_manager. intros w.
  destruct (od_get username (active_connections (manager w))) eqn:Hu; [|reflexivity].
  split; [|done]. unfold online; simpl. intros x Hx.
  destruct (decide (username = x)) as [<-|Hne].
  - rewrite od_get_del_eq in Hx. by destruct Hx.
  - by rewrite od_get_del_ne in Hx.
Qed.

Lemma step_touches o w :
  (∀ username websocket, o ≠ Connect username websocket) →
  touches (touched_by o) w (step o w).2.
Proof.
  destruct o as [user|u ws|u message|u|ws e]; intros Hnc; simpl.
  - unfold register. py. by destruct (users (manager w) !! username user).
  - by destruct (Hnc u ws).
  - apply keeps_on_receive.
  - apply (keeps_bind (touches ∅)); [apply keeps_disconnect|]. intros _.
    eapply keeps_weaken; [apply only_wire_touches | apply keeps_broadcast].
  - by split.
Qed.

Ltac use_step_touches w :=
  match goal with
  | |- context [step ?o w] =>
      let H := fresh in
      assert (H : ∀ username websocket, o ≠ Connect username websocket) by done;
      destruct (step_touches o w H) as (Hon & Hdom & Hsame)
  end.

Lemma step_index o w :
  dom (messages (manager (step o w).2)) =
    dom (messages (manager w))
    ∪ match o, (step o w).1 with
      | Connect username _, Return _ => {[username]}
      | _, _ => ∅
      end.
Proof.
  destruct o as [user|u ws|u message|u|ws e];
    try (use_step_touches w; rewrite Hdom; set_solver).
  unfold step. rewrite connect_run. destruct (failed w !! ws); simpl; [set_solver|].
  destruct (messages (manager w) !! u) eqn:Hu.
  - apply (elem_of_dom_2 (D := gset string)) in Hu. set_solver.
  - rewrite dom_insert_L. set_solver.
Qed.

Lemma run_index ops w :
  dom (messages (manager (run ops w))) = dom (messages (manager w)) ∪ connected ops w.
Proof.
  revert w. induction ops as [|o ops IH]; intros w; simpl; [set_solver|].
  rewrite IH, step_index. set_solver.
Qed.

Lemma step_indexed o w : registry_indexed w → registry_indexed (step o w).2.
Proof.
  intros Hw. destruct o as [user|u ws|u message|u|ws e];
    try (use_step_touches w;
         intros x Hx%Hon%Hw; apply elem_of_dom; rewrite Hdom; by apply elem_of_dom).
  unfold step. rewrite connect_run. destruct (failed w !! ws); simpl; [done|].
  intros x. unfold online; simpl. destruct (decide (u = x)) as [<-|Hne].
  - intros _. destruct (messages (manager w) !! u) eqn:Hu; [by rewrite Hu|].
    by rewrite lookup_insert_eq.
  - rewrite od_get_set_ne by done. intros Hx%Hw.
    destruct (messages (manager w) !! u); [done|]. by rewrite lookup_insert_ne.
Qed.

Lemma run_indexed ops w : registry_indexed w → registry_indexed (run ops w).
Proof.
  revert w. induction ops as [|o ops IH]; intros w Hw; simpl; [done|].
  by apply IH, step_indexed.
Qed.

Lemma step_inbox_empty username o w :
  exchanges username o = false → inbox_empty w username →
  inbox_empty (step o w).2 username.
Proof.
  intros Hex%bool_decide_eq_false Hw.
  destruct o as [user|u ws|u message|u|ws e];
    try (use_step_touches w; intros inner; rewrite Hsame by done; apply Hw).
  unfold step. rewrite connect_run. destruct (failed w !! ws); simpl; [done|].
  intros inner; simpl. destruct (messages (manager w) !! u) eqn:Hu; [apply Hw|].
  destruct (decide (u = username)) as [<-|Hne].
  - rewrite lookup_insert_eq. congruence.
  - rewrite lookup_insert_ne by done. apply Hw.
Qed.

Lemma run_inbox_empty username ops w :
  Forall (λ o, exchanges username o = false) ops → inbox_empty w username →
  inbox_empty (run ops w) username.
Proof.
  revert w. induction ops as [|o ops IH]; intros w Hops Hw; simpl; [done|].
  apply Forall_cons in Hops as [Ho Hops]. by apply IH, step_inbox_empty.
Qed.

Lemma get_inbox_run username w :
  get_inbox username w =
    match messages (manager w) !! username with
    | Some inner => (Return inner, w)
    | None => (Raise (HTTPException 404 "User not found"), w)
    end.
Proof. unfold get_inbox. py. by destruct (messages (manager w) !! username). Qed.

(** C8: after any sequence of operations from the initial world,
    [get_inbox] raises the 404 "User not found" exactly for the usernames
    for which no [connect] has returned; for a username that has connected
    it returns a mapping, and that mapping is empty when the user has
    neither sent nor been sent a direct chat. *)
Theorem get_inbox_found_iff_connected (ops : list op) (username : string) :
  let w := run ops init in
  ((get_inbox username w).1 = Raise (HTTPException 404 "User not found")
   ↔ username ∉ connected ops init)
  ∧ (username ∈ connected ops init →
     ∃ inner, get_inbox username w = (Return inner, w)
              ∧ (Forall (λ o, exchanges username o = false) ops → inner = ∅)).
Proof.
  intros w. rewrite get_inbox_run.
  assert (Hdom : username ∈ connected ops init ↔ is_Some (messages (manager w) !! username)).
  { rewrite <- elem_of_dom. unfold w. rewrite run_index. simpl. set_solver. }
  split.
  - rewrite Hdom. destruct (messages (manager w) !! username); simpl.
    + split; [done|]. intros H. destruct H. eauto.
    + split; [|done]. intros _ [? ?]. done.
  - intros [inner Hin]%Hdom. rewrite Hin. exists inner. split; [done|].
    intros Hops. apply (run_inbox_empty username ops init Hops); [|exact Hin].
    intros ? H. simpl in H. by rewrite lookup_empty in H.
Qed.

Lemma get_inbox_found_iff_connected_witness :
  let ops := [Connect "alice" 1; Connect "bob" 2; Connect "carol" 3;
              Receive "alice" (chat "bob" "hi")] in
  ∃ inner, get_inbox "carol" (run ops init) = (Return inner, run ops init) ∧ inner = ∅.
Proof.
  intros ops.
  destruct (proj2 (get_inbox_found_iff_connected ops "carol")) as (inner & Hrun & Hempty).
  - vm_compute. reflexivity.
  - exists inner. split; [exact Hrun|]. apply Hempty.
    repeat constructor.
Defined.

(** ** Requirements the code leaves to its callers *)

Lemma connected_indexed ops username :
  username ∈ connected ops init ↔ is_Some (messages (manager (run ops init)) !! username).
Proof. rewrite <- elem_of_dom, run_index. simpl. set_solver. Qed.

Lemma init_indexed : registry_indexed init.
Proof. intros x [ws Hx]. discriminate. Qed.

(** C9: [store_message] needs an index entry for both users and creates
    none.  In any world, a receiver without an entry makes it raise
    [KeyError] and still has no entry afterwards.  After any sequence of
    operations from the initial world, a direct chat from a connected user
    to a username that has never connected raises [KeyError] for that
    username out of the loop body; the exception is not the one the
    handler catches, so it ends the receive loop whatever frames follow,
    and the receiver's inbox is still not found. *)
Theorem direct_chat_to_never_connected_raises (ops : list op) (username to body : string)
    (message : gmap string string) :
  message !! "type" = Some "chat" →
  message !! "receiver" = Some to →
  message !! "content" = Some body →
  to ≠ "main" → String.prefix "group:" to = false →
  username ∈ connected ops init →
  to ∉ connected ops init →
  (∀ w0 sender, messages (manager w0) !! to = None →
     ∃ key w', store_message sender to body w0 = (Raise (KeyError key), w')
               ∧ (key = sender ∨ key = to)
               ∧ messages (manager w') !! to = None)
  ∧ ∃ w', on_receive username message (run ops init) = (Raise (KeyError to), w')
          ∧ messages (manager w') !! to = None
          ∧ (get_inbox to w').1 = Raise (HTTPException 404 "User not found")
          ∧ ∀ frames,
              try_except_disconnect (receive_loop username (message :: frames))
                                    (on_disconnect username) (run ops init)
              = (Raise (KeyError to), w').
Proof.
  intros Ht Hr Hc Hmain Hgroup Hu Hto. split.
  - intros w0 sender Hnone. rewrite store_message_run; simpl.
    destruct (messages (manager w0) !! sender) eqn:Hs.
    + rewrite Hnone. eexists to, _. split; [reflexivity|]. split; [by right|].
      simpl. by apply lookup_push_None.
    + eexists sender, _. split; [reflexivity|]. split; [by left | done].
  - set (w := run ops init).
    apply connected_indexed in Hu. fold w in Hu. destruct Hu as [inner Hu].
    assert (Hnone : messages (manager w) !! to = None).
    { apply eq_None_not_Some. intros H. by apply Hto, connected_indexed. }
    assert (Hoff : online w to = None).
    { apply eq_None_not_Some. intros H.
      apply (run_indexed ops init init_indexed) in H. fold w in H.
      rewrite Hnone in H. by destruct H. }
    assert (Hrun : on_receive username message w =
                     (Raise (KeyError to),
                      with_messages (push username to (mkMessage username to body)
                                          (messages (manager w))) w)).
    { rewrite (on_receive_direct _ _ _ _ _ Ht Hr Hc Hmain Hgroup).
      unfold py_bind. rewrite send_personal_message_offline by done.
      rewrite store_message_run; simpl. by rewrite Hu, Hnone. }
    eexists. split; [exact Hrun|].
    assert (Hafter : push username to (mkMessage username to body)
                       (messages (manager w)) !! to = None) by by apply lookup_push_None.
    split; [exact Hafter|]. split.
    + rewrite get_inbox_run; simpl. by rewrite Hafter.
    + intros frames. unfold try_except_disconnect. simpl.
      unfold py_bind. by rewrite Hrun.
Qed.

Lemma direct_chat_to_never_connected_raises_witness :
  ∃ w', on_receive "alice" (chat "bob" "hi") (run [Connect "alice" 1] init)
        = (Raise (KeyError "bob"), w')
        ∧ messages (manager w') !! "bob" = None.
Proof.
  destruct (proj2 (direct_chat_to_never_connected_raises [Connect "alice" 1]
                     "alice" "bob" "hi" (chat "bob" "hi")
                     eq_refl eq_refl eq_refl ltac:(discriminate) eq_refl
                     ltac:(vm_compute; reflexivity) ltac:(vm_compute; discriminate)))
    as (w' & Hrun & Hnone & _).
  exists w'. split; [exact Hrun | exact Hnone].
Defined.

Lemma users_getitem_run username w :
  users_getitem username w =
    match users (manager w) !! username with
    | Some u => (Return u, w)
    | None => (Raise (KeyError username), w)
    end.
Proof. unfold users_getitem. py. by destruct (users (manager w) !! username). Qed.

Lemma online_users_unregistered (l : list string) username w :
  username ∈ l → users (manager w) !! username = None →
  ∃ key, comprehension (λ username, u <~ users_getitem username; py_ret (username, gender u)) l w
         = (Raise (KeyError key), w)
         ∧ key ∈ l ∧ users (manager w) !! key = None.
Proof.
  intros Hin Hnone. induction l as [|x l IH]; [by apply elem_of_nil in Hin|].
  simpl. unfold py_bind at 1 2. rewrite users_getitem_run.
  destruct (users (manager w) !! x) as [u|] eqn:Hx.
  - apply elem_of_cons in Hin as [->|Hin]; [congruence|].
    destruct (IH Hin) as (key & Hrun & Hkey & Hk).
    exists key. unfold py_ret at 1. cbv beta iota. unfold py_bind at 1. rewrite Hrun.
    split; [done|]. split; [by apply list_elem_of_further | done].
  - exists x. split; [done|]. split; [apply list_elem_of_here | done].
Qed.

(** C10: [connect] does not look at the user registry, so a username that
    is not registered connects like any other; from then on
    [get_online_users] raises [KeyError] at the first online username
    without a profile instead of returning a list. *)
Theorem online_users_raises_for_unregistered (username : string) (websocket : nat)
    (w : world) :
  failed w !! websocket = None →
  users (manager w) !! username = None →
  ∃ w', connect username websocket w = (Return (), w')
        ∧ online w' username = Some websocket
        ∧ ∃ key, get_online_users w' = (Raise (KeyError key), w')
                 ∧ is_Some (online w' key)
                 ∧ users (manager w') !! key = None.
Proof.
  intros Hopen Hnone. rewrite connect_run, Hopen.
  eexists. split; [reflexivity|].
  assert (Hon : od_get username (od_set username websocket (active_connections (manager w)))
                = Some websocket) by apply od_get_set_eq.
  split; [exact Hon|].
  unfold get_online_users. unfold py_bind at 1. simpl.
  edestruct (online_users_unregistered
               (od_keys (od_set username websocket (active_connections (manager w))))
               username) as (key & Hrun & Hkey & Hk); [| |exists key; split; [exact Hrun|]].
  - apply od_get_is_Some. rewrite Hon. eauto.
  - exact Hnone.
  - split; [|exact Hk]. unfold online; simpl. by apply od_get_is_Some.
Qed.

Lemma online_users_raises_for_unregistered_witness :
  ∃ w', connect "bob" 1 init = (Return (), w')
        ∧ get_online_users w' = (Raise (KeyError "bob"), w').
Proof.
  destruct (online_users_raises_for_unregistered "bob" 1 init) as (w' & Hrun & _ & _).
  - reflexivity.
  - reflexivity.
  - exists w'. split; [exact Hrun|].
    injection Hrun as <-. reflexivity.
Defined.

(** ** The two views of a conversation *)

Lemma direct_receiver_Some message to :
  direct_receiver message = Some to →
  message !! "type" = Some "chat" ∧ message !! "receiver" = Some to
  ∧ to ≠ "main" ∧ String.prefix "group:" to = false.
Proof.
  unfold direct_receiver.
  destruct (message !! "type") as [type|]; [|done].
  destruct (message !! "receiver") as [to'|]; [|done].
  destruct (decide (type = "chat")) as [->|]; [|done].
  destruct (decide (to' = "main")); [done|].
  destruct (String.prefix "group:" to') eqn:Hp; [done|].
  intros [= ->]. done.
Qed.

Lemma touches_empty_messages w w' :
  touches ∅ w w' → messages (manager w') = messages (manager w).
Proof. intros (_ & _ & Hsame). apply map_eq. intros x. by apply Hsame. Qed.

Lemma symmetric_same_messages w w' :
  messages (manager w') = messages (manager w) → symmetric w → symmetric w'.
Proof. intros Hm Hw a b. unfold thread. rewrite Hm. apply Hw. Qed.

Lemma symmetric_init : symmetric init.
Proof. intros a b. reflexivity. Qed.

(** An operation that returns keeps the two views of every pair equal;
    they can only part when a handler raises half-way through
    [store_message]. *)
Lemma step_symmetric o w w' :
  symmetric w → step o w = (Return (), w') → symmetric w'.
Proof.
  intros Hw Hrun. assert (Hw' : w' = (step o w).2) by by rewrite Hrun.
  destruct o as [user|u ws|u message|u|ws e].
  - subst w'. eapply symmetric_same_messages; [|exact Hw].
    by apply touches_empty_messages, (step_touches (Register user)).
  - unfold step in Hrun. rewrite connect_run in Hrun.
    destruct (failed w !! ws); [done|]. injection Hrun as <-.
    destruct (messages (manager w) !! u) eqn:Hu; [exact Hw|].
    assert (Hnone : ∀ b, thread w u b = None) by (intros b; unfold thread; by rewrite Hu).
    intros a b. unfold thread; simpl.
    destruct (decide (u = a)) as [<-|Ha], (decide (u = b)) as [<-|Hb];
      rewrite ?lookup_insert_eq, ?lookup_insert_ne by done; simpl;
      rewrite ?lookup_empty.
    + done.
    + specialize (Hw b u). rewrite Hnone in Hw. unfold thread in Hw. by rewrite <- Hw.
    + specialize (Hw a u). rewrite Hnone in Hw. unfold thread in Hw. by rewrite Hw.
    + apply Hw.
  - destruct (direct_receiver message) as [to|] eqn:Hd.
    + apply direct_receiver_Some in Hd as (Ht & Hr & Hmain & Hgroup).
      simpl in Hrun.
      destruct (message !! "content") as [body|] eqn:Hc.
      2:{ unfold on_receive in Hrun. unfold py_bind at 1 in Hrun.
          rewrite (getitem_Some _ _ _ _ Ht) in Hrun.
          rewrite decide_True in Hrun by done.
          unfold py_bind at 1 in Hrun. rewrite (getitem_Some _ _ _ _ Hr) in Hrun.
          rewrite decide_False in Hrun by done. rewrite Hgroup in Hrun.
          unfold py_bind at 1 in Hrun. by rewrite (getitem_None _ _ _ Hc) in Hrun. }
      rewrite (on_receive_direct _ _ _ _ _ Ht Hr Hc Hmain Hgroup) in Hrun.
      unfold py_bind in Hrun.
      pose proof (keeps_send_personal_message (chat_payload u body to) to w) as [Hm Hf].
      destruct (send_personal_message (chat_payload u body to) to w) as [[[]|e] w1];
        [|done]. simpl in Hm, Hf.
      assert (Hw1 : symmetric w1) by (eapply symmetric_same_messages; [by rewrite Hm | exact Hw]).
      clear Hw' Hm Hf Hw. rewrite store_message_run in Hrun; simpl in Hrun.
      destruct (messages (manager w1) !! u) eqn:Hu; [|done].
      destruct (messages (manager w1) !! to) eqn:Hto; [|done].
      destruct (store_message_ok u to body w1) as (w2 & Hrun2 & H1 & H2 & Hother & _);
        [eauto..|].
      rewrite store_message_run in Hrun2; simpl in Hrun2. rewrite Hu, Hto in Hrun2.
      rewrite Hrun2 in Hrun. injection Hrun as <-.
      intros a b.
      destruct (decide ((a, b) = (u, to))) as [[= -> ->]|Hab].
      { rewrite H1, H2. by rewrite (Hw1 u to). }
      destruct (decide ((a, b) = (to, u))) as [[= -> ->]|Hba].
      { rewrite H1, H2. by rewrite (Hw1 u to). }
      rewrite !Hother by congruence. apply Hw1.
    + subst w'. eapply symmetric_same_messages; [|exact Hw].
      apply touches_empty_messages.
      pose proof (step_touches (Receive u message) w ltac:(done)) as H.
      simpl in H. unfold touched in H. by rewrite Hd in H.
  - subst w'. eapply symmetric_same_messages; [|exact Hw].
    by apply touches_empty_messages, (step_touches (Disconnect u)).
  - subst w'. eapply symmetric_same_messages; [|exact Hw].
    by apply touches_empty_messages, (step_touches (Fail ws e)).
Qed.

Lemma run_symmetric ops w : symmetric w → all_return ops w → symmetric (run ops w).
Proof.
  revert w. induction ops as [|o ops IH]; intros w Hw Hops; simpl; [done|].
  destruct Hops as [Ho Hops]. apply IH; [|done].
  apply (step_symmetric o w); [done|].
  destruct (step o w) as [r w1]; simpl in *. by subst r.
Qed.

(** C4, as the code has it: when both usernames have a conversation-index
    entry, [store_message] returns and the thread of A keyed by B and the
    thread of B keyed by A both end with the message; the two threads are
    identical in content and order, with the message at the same position,
    whenever they were identical before the call, as they are in every
    world reached from the initial one by operations that all returned. *)
Theorem store_message_both_threads (A B content : string) (w : world) :
  is_Some (messages (manager w) !! A) →
  is_Some (messages (manager w) !! B) →
  ∃ w' tA tB,
    store_message A B content w = (Return (), w')
    ∧ thread w' A B = Some tA ∧ thread w' B A = Some tB
    ∧ last tA = Some (mkMessage A B content)
    ∧ last tB = Some (mkMessage A B content)
    ∧ (thread w A B = thread w B A → tA = tB)
    ∧ (∀ ops, w = run ops init → all_return ops init → tA = tB).
Proof.
  intros HA HB.
  destruct (store_message_ok A B content w HA HB) as (w' & Hrun & HtA & HtB & _).
  eexists w', _, _. split; [exact Hrun|]. split; [exact HtA|]. split; [exact HtB|].
  split; [|split; [|split]].
  - rewrite last_app. by destruct (decide (A = B)).
  - rewrite last_app. by destruct (decide (A = B)).
  - by intros ->.
  - intros ops -> Hops.
    by rewrite (run_symmetric ops init symmetric_init Hops A B).
Qed.

Lemma store_message_both_threads_witness :
  ∃ w', store_message "alice" "bob" "hi" (run [Connect "alice" 1; Connect "bob" 2] init)
        = (Return (), w')
        ∧ thread w' "alice" "bob" = thread w' "bob" "alice".
Proof.
  destruct (store_message_both_threads "alice" "bob" "hi"
              (run [Connect "alice" 1; Connect "bob" 2] init))
    as (w' & tA & tB & Hrun & HA & HB & _ & _ & Hsame & _).
  - vm_compute. eauto.
  - vm_compute. eauto.
  - exists w'. split; [exact Hrun|]. rewrite HA, HB. f_equal. apply Hsame. reflexivity.
Defined.

(** C4, as stated, fails: a direct chat to a user who has not connected yet
    is recorded on the sender's side only, and from then on the two views
    of the pair differ, also after a call that returns. *)
Lemma store_message_views_differ :
  let w := run [Connect "alice" 1; Receive "alice" (chat "bob" "m1");
                Connect "bob" 2; Connect "alice" 3] init in
  let r := store_message "alice" "bob" "m2" w in
  r.1 = Return ()
  ∧ thread r.2 "alice" "bob"
    = Some [mkMessage "alice" "bob" "m1"; mkMessage "alice" "bob" "m2"]
  ∧ thread r.2 "bob" "alice" = Some [mkMessage "alice" "bob" "m2"]
  ∧ thread r.2 "alice" "bob" ≠ thread r.2 "bob" "alice".
Proof. repeat split. vm_compute. discriminate. Qed.

(** ** Online users and whole sessions *)

Lemma online_users_registered (l : list string) w :
  (∀ username, username ∈ l → is_Some (users (manager w) !! username)) →
  ∃ rows, comprehension (λ username, u <~ users_getitem username; py_ret (username, gender u)) l w
          = (Return rows, w)
          ∧ rows.*1 = l.
Proof.
  induction l as [|x l IH]; intros Hreg; [by exists []|].
  destruct (Hreg x) as [u Hx]; [apply list_elem_of_here|].
  destruct IH as (rows & Hrun & Hrows).
  { intros y Hy. by apply Hreg, list_elem_of_further. }
  exists ((x, gender u) :: rows). simpl. unfold py_bind at 1 2.
  rewrite users_getitem_run, Hx. unfold py_ret at 1. cbv beta iota.
  unfold py_bind at 1. rewrite Hrun. by rewrite <- Hrows.
Qed.

Lemma get_online_users_registered w :
  (∀ username, is_Some (online w username) → is_Some (users (manager w) !! username)) →
  ∃ rows, get_online_users w = (Return rows, w)
          ∧ rows.*1 = od_keys (active_connections (manager w)).
Proof.
  intros Hreg. unfold get_online_users. unfold py_bind at 1. simpl.
  apply online_users_registered. intros u Hu. by apply Hreg, od_get_is_Some.
Qed.

(** One client alone: it connects, creates a group, talks on the main
    channel and to itself, and goes away. *)
Example websocket_endpoint_session :
  let r := websocket_endpoint 1 "alice"
             [create_group "g1"; chat "main" "hello"; chat "alice" "note"] init in
  r.1 = Return ()
  ∧ wire r.2 = [(1, chat_payload "alice" "hello" "main");
                 (1, chat_payload "alice" "note" "alice")]
  ∧ online r.2 "alice" = None
  ∧ members_of r.2 "g1" = ["alice"]
  ∧ thread r.2 "alice" "alice"
    = Some [mkMessage "alice" "alice" "note"; mkMessage "alice" "alice" "note"].
Proof. repeat split. Qed.

(** The scenario of two users and a group. *)
Example two_users_and_a_group :
  let w := run [Register (mkUser "alice" 30 "f"); Connect "alice" 1; Connect "bob" 2;
                Connect "carol" 3;
                Receive "alice" (chat "bob" "hi");
                Receive "alice" (create_group "g1"); Receive "bob" (join_group "g1");
                Receive "alice" (chat "group:g1" "yo");
                Disconnect "bob"; Receive "alice" (chat "bob" "again")] init in
  wire w = [(2, chat_payload "alice" "hi" "bob");
            (1, chat_payload "alice" "yo" "group:g1");
            (2, chat_payload "alice" "yo" "group:g1");
            (1, system_payload "bob left the chat");
            (3, system_payload "bob left the chat")]
  ∧ online w "bob" = None
  ∧ thread w "alice" "bob"
    = Some [mkMessage "alice" "bob" "hi"; mkMessage "alice" "bob" "again"]
  ∧ thread w "bob" "alice" = thread w "alice" "bob"
  ∧ (register (mkUser "alice" 31 "f") w).1
    = Raise (HTTPException 400 "Username already exists").
Proof. repeat split. Qed.

(** * The rest of the code *)

(** ** Which fields an operation leaves alone *)

#[global] Instance agree_preorder {T} (f : ConnectionManager → T) : PreOrder (agree f).
Proof.
  split.
  - by intros w.
  - intros w1 w2 w3 H1 H2. unfold agree in *. congruence.
Qed.

Lemma only_wire_agree {T} (f : ConnectionManager → T) w w' :
  only_wire w w' → agree f w w'.
Proof. intros [Hm _]. unfold agree. by rewrite Hm. Qed.

Lemma keeps_agree_wire {T} (f : ConnectionManager → T) {A} (c : Py A) :
  keeps only_wire c → keeps (agree f) c.
Proof. apply keeps_weaken, only_wire_agree. Qed.

Section agree_facts.
Context {T : Type} (f : ConnectionManager → T).

Lemma keeps_agree_store_message sender receiver content :
  (∀ ms m, f (set_messages ms m) = f m) →
  keeps (agree f) (store_message sender receiver content).
Proof.
  intros Hf w. rewrite store_message_run; simpl.
  destruct (messages (manager w) !! sender); [|reflexivity].
  destruct (messages (manager w) !! receiver); unfold agree; simpl; apply Hf.
Qed.

(** The chat branches change the index and the wire at most. *)
Lemma keeps_agree_chat username message :
  (∀ ms m, f (set_messages ms m) = f m) →
  message !! "type" = Some "chat" →
  keeps (agree f) (on_receive username message).
Proof.
  intros Hf Ht. unfold on_receive.
  apply keeps_bind_getitem; [apply _|]. intros type Ht'.
  assert (type = "chat") as -> by congruence. rewrite decide_True by done.
  apply keeps_bind_getitem; [apply _|]. intros to Hr.
  destruct (decide (to = "main")).
  { apply keeps_bind_getitem; [apply _|]. intros body _.
    apply keeps_agree_wire, keeps_broadcast. }
  destruct (String.prefix "group:" to).
  { apply keeps_bind_getitem; [apply _|]. intros body _.
    apply keeps_agree_wire, keeps_send_to_group. }
  apply keeps_bind_getitem; [apply _|]. intros body _.
  apply keeps_bind; [apply _| |intros _; by apply keeps_agree_store_message].
  apply keeps_agree_wire, keeps_send_personal_message.
Qed.

(** The other branches change the groups at most. *)
Lemma keeps_agree_not_chat username message :
  (∀ gs m, f (set_groups gs m) = f m) →
  message !! "type" ≠ Some "chat" →
  keeps (agree f) (on_receive username message).
Proof.
  intros Hf Ht. unfold on_receive.
  apply keeps_bind_getitem; [apply _|]. intros type Ht'.
  rewrite decide_False by congruence.
  destruct (decide (type = "create_group")).
  { apply keeps_bind_getitem; [apply _|]. intros g _.
    apply keeps_bind_manager. intros w. unfold agree; simpl. apply Hf. }
  destruct (decide (type = "join_group")); [|apply keeps_ret; apply _].
  apply keeps_bind_getitem; [apply _|]. intros g _.
  apply keeps_bind_manager. intros w.
  destruct (groups (manager w) !! g); [|reflexivity]. unfold agree; simpl. apply Hf.
Qed.

Lemma keeps_agree_on_receive username message :
  (∀ ms m, f (set_messages ms m) = f m) →
  (∀ gs m, f (set_groups gs m) = f m) →
  keeps (agree f) (on_receive username message).
Proof.
  intros Hm Hg. destruct (decide (message !! "type" = Some "chat")).
  - by apply keeps_agree_chat.
  - by apply keeps_agree_not_chat.
Qed.

Lemma keeps_agree_on_disconnect username :
  (∀ d m, f (set_active_connections d m) = f m) →
  keeps (agree f) (on_disconnect username).
Proof.
  intros Hf. apply keeps_bind; [apply _| |intros _; apply keeps_agree_wire, keeps_broadcast].
  apply keeps_bind_manager. intros w.
  destruct (od_get username (active_connections (manager w))); [|reflexivity].
  unfold agree; simpl. apply Hf.
Qed.
End agree_facts.

Lemma step_users o w :
  (∀ user, o ≠ Register user) → users (manager (step o w).2) = users (manager w).
Proof.
  destruct o as [user|u ws|u message|u|ws e]; intros Hnr.
  - by destruct (Hnr user).
  - unfold step. rewrite connect_run. by destruct (failed w !! ws).
  - by apply (keeps_agree_on_receive users).
  - by apply (keeps_agree_on_disconnect users).
  - done.
Qed.

Lemma step_groups o w :
  (∀ username message, o ≠ Receive username message) →
  groups (manager (step o w).2) = groups (manager w).
Proof.
  destruct o as [user|u ws|u message|u|ws e]; intros Hnr.
  - simpl. unfold register. py. by destruct (users (manager w) !! username user).
  - unfold step. rewrite connect_run. by destruct (failed w !! ws).
  - by destruct (Hnr u message).
  - by apply (keeps_agree_on_disconnect groups).
  - done.
Qed.

Lemma on_receive_active username message w :
  active_connections (manager (on_receive username message w).2)
  = active_connections (manager w).
Proof. by apply (keeps_agree_on_receive active_connections). Qed.

(** ** User registry *)

Lemma get_user_profile_run username w :
  get_user_profile username w =
    match users (manager w) !! username with
    | Some u => (Return u, w)
    | None => (Raise (HTTPException 404 "User not found"), w)
    end.
Proof. unfold get_user_profile. py. by destruct (users (manager w) !! username). Qed.

Lemma register_run user w :
  register user w =
    match users (manager w) !! username user with
    | Some _ => (Raise (HTTPException 400 "Username already exists"), w)
    | None =>
        (Return "User registered successfully",
         mkWorld (set_users (<[username user := user]> (users (manager w))) (manager w))
                 (failed w) (wire w))
    end.
Proof. unfold register. py. by destruct (users (manager w) !! username user). Qed.

(** X1: [register] of a free username returns, after which
    [get_user_profile] of that username returns the profile just given,
    the other profiles are as before and nothing else has changed;
    [register] of a taken username raises the 400 "Username already
    exists", changes nothing, and the profile stored first is still the
    one [get_user_profile] returns. *)
Theorem register_fresh_or_conflict (user : User) (w : world) :
  match users (manager w) !! username user with
  | None =>
      ∃ w', register user w = (Return "User registered successfully", w')
            ∧ get_user_profile (username user) w' = (Return user, w')
            ∧ (∀ other, other ≠ username user →
                 users (manager w') !! other = users (manager w) !! other)
            ∧ active_connections (manager w') = active_connections (manager w)
            ∧ messages (manager w') = messages (manager w)
            ∧ groups (manager w') = groups (manager w)
            ∧ failed w' = failed w ∧ wire w' = wire w
  | Some first =>
      register user w = (Raise (HTTPException 400 "Username already exists"), w)
      ∧ get_user_profile (username user) w = (Return first, w)
  end.
Proof.
  rewrite register_run. destruct (users (manager w) !! username user) as [p|] eqn:Hu.
  - split; [done|]. by rewrite get_user_profile_run, Hu.
  - eexists. split; [reflexivity|]. split; [|split; [|done]].
    + rewrite get_user_profile_run; simpl. by rewrite lookup_insert_eq.
    + intros other Hne. simpl. by rewrite lookup_insert_ne.
Qed.

Lemma run_users ops w u :
  users (manager (run ops w)) !! u =
    match users (manager w) !! u with
    | Some p => Some p
    | None => first_registered u ops
    end.
Proof.
  revert w. induction ops as [|o ops IH]; intros w; simpl.
  { by destruct (users (manager w) !! u). }
  rewrite IH. destruct o as [user|v ws|v message|v|ws e];
    try (rewrite step_users by done; reflexivity).
  simpl. unfold py_bind. rewrite register_run.
  destruct (users (manager w) !! username user) as [p|] eqn:Hp; simpl.
  - destruct (decide (username user = u)) as [<-|Hne]; [by rewrite Hp|done].
  - destruct (decide (username user = u)) as [<-|Hne].
    + by rewrite lookup_insert_eq, Hp.
    + by rewrite lookup_insert_ne.
Qed.

(** X2: after any sequence of operations from the initial world,
    [get_user_profile] returns the profile of the first registration made
    under the username, whatever was registered under it later and
    whatever else happened, and raises the 404 "User not found" when
    nothing was registered under it; it changes nothing. *)
Theorem profile_is_first_registration (ops : list op) (username : string) :
  get_user_profile username (run ops init) =
    (match first_registered username ops with
     | Some user => Return user
     | None => Raise (HTTPException 404 "User not found")
     end, run ops init).
Proof.
  rewrite get_user_profile_run, run_users. simpl. rewrite lookup_empty.
  by destruct (first_registered username ops).
Qed.

(** ** Connecting and going away *)

Lemma od_keys_set {V} k (v : V) d :
  od_keys (od_set k v d) =
    match od_get k d with
    | Some _ => od_keys d
    | None => od_keys d ++ [k]
    end.
Proof.
  unfold od_keys. induction d as [|[k' v'] d IH]; [done|].
  cbn [od_set od_get]. destruct (decide (k = k')) as [->|Hne]; [done|].
  rewrite fmap_cons, IH. by destruct (od_get k d).
Qed.

Lemma od_keys_del {V} k (d : list (string * V)) :
  od_keys (od_del k d) = filter (λ x, x ≠ k) (od_keys d).
Proof.
  unfold od_keys. induction d as [|[k' v'] d IH]; [done|].
  cbn [od_del]. rewrite fmap_cons. cbn [fst].
  destruct (decide (k = k')) as [->|Hne].
  - by rewrite filter_cons_False by (intros H; by apply H).
  - rewrite filter_cons_True by done. by rewrite fmap_cons, IH.
Qed.

(** X3: [connect] on a sound socket returns with the username registered
    at that socket, whatever was registered under it before (the last
    connection wins).  A username that was online keeps its place in the
    iteration order of the registry, a new one goes to the end; the
    username has a conversation-index entry afterwards, the one it had if
    it had one (a reconnection keeps the history) and an empty one
    otherwise; the other usernames, the profiles, the groups and the wire
    are untouched. *)
Theorem connect_registers (username : string) (websocket : nat) (w : world) :
  failed w !! websocket = None →
  ∃ w', connect username websocket w = (Return (), w')
        ∧ online w' username = Some websocket
        ∧ (∀ other, other ≠ username → online w' other = online w other)
        ∧ od_keys (active_connections (manager w'))
          = match online w username with
            | Some _ => od_keys (active_connections (manager w))
            | None => od_keys (active_connections (manager w)) ++ [username]
            end
        ∧ messages (manager w') !! username
          = Some (default ∅ (messages (manager w) !! username))
        ∧ (∀ other, other ≠ username →
             messages (manager w') !! other = messages (manager w) !! other)
        ∧ users (manager w') = users (manager w)
        ∧ groups (manager w') = groups (manager w)
        ∧ failed w' = failed w ∧ wire w' = wire w.
Proof.
  intros Hopen. rewrite connect_run, Hopen. eexists. split; [reflexivity|].
  unfold online; simpl. split; [apply od_get_set_eq|].
  split; [intros other Hne; by apply od_get_set_ne|].
  split; [apply od_keys_set|].
  destruct (messages (manager w) !! username) as [inner|] eqn:Hu; simpl.
  - by rewrite Hu.
  - rewrite lookup_insert_eq. split; [done|]. split; [|done].
    intros other Hne. by rewrite lookup_insert_ne.
Qed.

Lemma connect_registers_witness :
  ∃ w', connect "alice" 7 (run [Connect "alice" 1; Connect "bob" 2;
                                Receive "bob" (chat "alice" "hi")] init) = (Return (), w')
        ∧ online w' "alice" = Some 7
        ∧ od_keys (active_connections (manager w')) = ["alice"; "bob"].
Proof.
  destruct (connect_registers "alice" 7
              (run [Connect "alice" 1; Connect "bob" 2;
                    Receive "bob" (chat "alice" "hi")] init))
    as (w' & Hrun & Hon & _ & Hkeys & _).
  - reflexivity.
  - exists w'. split; [exact Hrun|]. split; [exact Hon|]. rewrite Hkeys. reflexivity.
Defined.

Lemma step_active o w :
  active_connections (manager (step o w).2) = active_connections (manager w)
  ∨ (∃ u ws, active_connections (manager (step o w).2)
             = od_set u ws (active_connections (manager w)))
  ∨ (∃ u, active_connections (manager (step o w).2)
          = od_del u (active_connections (manager w))).
Proof.
  destruct o as [user|u ws|u message|u|ws e].
  - left. simpl. unfold py_bind. rewrite register_run.
    by destruct (users (manager w) !! username user).
  - unfold step. rewrite connect_run. destruct (failed w !! ws); [by left|].
    right; left. by exists u, ws.
  - left. apply on_receive_active.
  - simpl. unfold on_disconnect, py_bind.
    destruct (online w u) as [ws|] eqn:Hon.
    + rewrite (disconnect_present _ ws) by done.
      right; right. exists u.
      match goal with |- context [broadcast ?m ?w1] =>
        pose proof (keeps_broadcast m w1) as [Hm _];
        destruct (broadcast m w1) as [[[]|e] w2] end; simpl in *; by rewrite Hm.
    + rewrite disconnect_absent by done. by left.
  - by left.
Qed.

(** X4: whatever the clients do, the registry holds a username at most
    once: after any sequence of operations from the initial world the
    usernames [broadcast] and [get_online_users] iterate over are pairwise
    distinct. *)
Theorem one_connection_per_username (ops : list op) :
  NoDup (od_keys (active_connections (manager (run ops init)))).
Proof.
  assert (H : ∀ w, NoDup (od_keys (active_connections (manager w))) →
                   NoDup (od_keys (active_connections (manager (run ops w))))).
  { induction ops as [|o ops IH]; intros w Hw; simpl; [done|].
    apply IH. destruct (step_active o w) as [->|[(u & ws & ->)|(u & ->)]].
    - done.
    - rewrite od_keys_set.
      destruct (od_get u (active_connections (manager w))) eqn:Hu; [done|].
      apply NoDup_app. split; [done|]. split; [|apply NoDup_singleton].
      intros x Hx ->%list_elem_of_singleton. by apply od_get_None in Hu.
    - rewrite od_keys_del. by apply NoDup_filter. }
  apply H. simpl. apply NoDup_nil_2.
Qed.

Lemma on_disconnect_offline username w :
  online w username = None → on_disconnect username w = (Raise (KeyError username), w).
Proof. intros H. unfold on_disconnect, py_bind. by rewrite disconnect_absent. Qed.

Lemma on_disconnect_online username websocket w :
  online w username = Some websocket →
  on_disconnect username w =
    broadcast (system_payload (String.append username " left the chat"))
      (mkWorld (set_active_connections
                  (od_del username (active_connections (manager w))) (manager w))
               (failed w) (wire w)).
Proof.
  intros H. unfold on_disconnect, py_bind. by rewrite (disconnect_present _ websocket).
Qed.

Lemma on_disconnect_unregisters username websocket w :
  online w username = Some websocket → online (on_disconnect username w).2 username = None.
Proof.
  intros H. rewrite (on_disconnect_online _ websocket) by done.
  match goal with |- context [broadcast ?m ?w1] =>
    pose proof (keeps_broadcast m w1) as [Hm _] end.
  unfold online. rewrite Hm. simpl. apply od_get_del_eq.
Qed.

(** X5: the disconnect branch for an online username removes its registry
    entry and then writes the notice "<username> left the chat" to every
    socket still registered, in registry order, provided those sockets
    take the write; the conversation index, the groups and the profiles
    are untouched.  For a username that is not online the branch raises
    [KeyError] before anything is written: nobody is told. *)
Theorem on_disconnect_notifies_the_rest (username : string) (w : world) :
  let rest := od_del username (active_connections (manager w)) in
  let notice := system_payload (String.append username " left the chat") in
  (∀ ws, ws ∈ od_values rest → failed w !! ws = None) →
  match online w username with
  | Some _ =>
      on_disconnect username w =
        (Return (),
         mkWorld (set_active_connections rest (manager w)) (failed w)
                 (wire w ++ ((λ ws, (ws, notice)) <$> od_values rest)))
  | None => on_disconnect username w = (Raise (KeyError username), w)
  end.
Proof.
  intros rest notice Hopen. destruct (online w username) as [ws|] eqn:Hon.
  - rewrite (on_disconnect_online _ ws) by done. unfold broadcast. py.
    by rewrite for_each_send_open.
  - by apply on_disconnect_offline.
Qed.

Lemma on_disconnect_notifies_the_rest_witness :
  let w := run [Connect "alice" 1; Connect "bob" 2; Connect "carol" 3] init in
  ∃ w', on_disconnect "bob" w = (Return (), w')
        ∧ written w w' = [(1, system_payload "bob left the chat");
                          (3, system_payload "bob left the chat")]
        ∧ online w' "bob" = None.
Proof.
  intros w. pose proof (on_disconnect_notifies_the_rest "bob" w) as H.
  simpl in H. eexists. split; [apply H|].
  - intros ws _. vm_compute. destruct ws as [|[|[|[|ws]]]]; reflexivity.
  - split; reflexivity.
Defined.

(** X6: two sessions under one username share one registry entry.  After
    [connect] for a first and then a second socket the username is
    registered at the second; the disconnect branch of either session then
    unregisters the username altogether, although the other session is
    still there, and the disconnect branch of the other session raises
    [KeyError] and writes no notice. *)
Theorem shared_username_sessions (username : string) (first second : nat) (w : world) :
  failed w !! first = None → failed w !! second = None →
  ∃ w2, (connect username first ;; connect username second) w = (Return (), w2)
        ∧ online w2 username = Some second
        ∧ online (on_disconnect username w2).2 username = None
        ∧ on_disconnect username (on_disconnect username w2).2
          = (Raise (KeyError username), (on_disconnect username w2).2).
Proof.
  intros H1 H2. unfold py_bind.
  rewrite connect_run, H1. rewrite connect_run. simpl. rewrite H2.
  eexists. split; [reflexivity|].
  set (w2 := mkWorld _ _ _).
  assert (Hon : online w2 username = Some second)
    by (unfold online; simpl; apply od_get_set_eq).
  split; [exact Hon|].
  assert (Hoff : online (on_disconnect username w2).2 username = None)
    by by apply (on_disconnect_unregisters _ second).
  split; [done|]. by apply on_disconnect_offline.
Qed.

Lemma shared_username_sessions_witness :
  ∃ w2, (connect "alice" 1 ;; connect "alice" 2) init = (Return (), w2)
        ∧ online (on_disconnect "alice" w2).2 "alice" = None.
Proof.
  destruct (shared_username_sessions "alice" 1 2 init) as (w2 & Hrun & _ & Hoff & _).
  - reflexivity.
  - reflexivity.
  - exists w2. split; [exact Hrun | exact Hoff].
Defined.

(** ** Group fan-out *)

Lemma send_to_group_members message (l : list string) w :
  (∀ member ws, member ∈ l → online w member = Some ws → failed w !! ws = None) →
  for_each (λ member,
              m <~ the_manager;
              match od_get member (active_connections m) with
              | Some websocket => send_text websocket message
              | None => py_ret ()
              end) l w
  = (Return (),
     mkWorld (manager w) (failed w) (wire w ++ ((λ ws, (ws, message)) <$> fan_out w l))).
Proof.
  revert w. induction l as [|member l IH]; intros w Hopen.
  { simpl. unfold py_ret. by rewrite app_nil_r, world_eta. }
  cbn [for_each]. unfold py_bind at 1.
  change ((m <~ the_manager;
           match od_get member (active_connections m) with
           | Some websocket => send_text websocket message
           | None => py_ret ()
           end) w) with (send_personal_message message member w).
  unfold fan_out. cbn [omap list_omap]. fold (fan_out w l).
  destruct (online w member) as [ws|] eqn:Hon.
  - rewrite (send_personal_message_online _ _ ws) by done.
    rewrite send_text_open by (eapply Hopen; [apply list_elem_of_here | done]).
    rewrite IH.
    + simpl. rewrite <- app_assoc. done.
    + intros x y Hx Hy. eapply Hopen; [by apply list_elem_of_further | exact Hy].
  - rewrite send_personal_message_offline by done. rewrite IH; [done|].
    intros x y Hx Hy. eapply Hopen; [by apply list_elem_of_further | exact Hy].
Qed.

Lemma send_to_group_run message group_name w :
  (∀ member ws, member ∈ members_of w group_name → online w member = Some ws →
     failed w !! ws = None) →
  send_to_group message group_name w =
    (Return (),
     mkWorld (manager w) (failed w)
             (wire w ++ ((λ ws, (ws, message)) <$> fan_out w (members_of w group_name)))).
Proof.
  intros Hopen. unfold send_to_group, members_of in *. unfold py_bind at 1. simpl.
  destruct (groups (manager w) !! group_name) as [g|].
  - by apply send_to_group_members.
  - unfold py_ret. simpl. by rewrite app_nil_r, world_eta.
Qed.

Lemma fan_out_count w ws (l : list string) :
  length (filter (λ x, x = ws) (fan_out w l))
  = length (filter (λ member, online w member = Some ws) l).
Proof.
  unfold fan_out. induction l as [|member l IH]; [done|].
  cbn [omap list_omap]. destruct (online w member) as [ws'|] eqn:Hon.
  - destruct (decide (ws' = ws)) as [->|Hne].
    + rewrite !filter_cons_True by done. simpl. by rewrite IH.
    + rewrite !filter_cons_False by congruence. done.
  - rewrite (filter_cons_False _ member) by congruence. done.
Qed.

(** X7: [send_to_group] on a name that is no group writes nothing and
    returns.  On a group it writes the payload to the socket of every
    member that is online, in member order, and skips the members that are
    offline: a socket gets one frame for each listed member online at it,
    so a member listed twice is written to twice.  It changes nothing but
    the wire.  All this provided the sockets written to take the write. *)
Theorem send_to_group_fans_out (message : payload) (group_name : string) (w : world) :
  (∀ member ws, member ∈ members_of w group_name → online w member = Some ws →
     failed w !! ws = None) →
  ∃ w', send_to_group message group_name w = (Return (), w')
        ∧ manager w' = manager w ∧ failed w' = failed w
        ∧ written w w' = (λ ws, (ws, message)) <$> fan_out w (members_of w group_name)
        ∧ (groups (manager w) !! group_name = None → w' = w)
        ∧ ∀ ws, frames_to ws (written w w')
                = length (filter (λ member, online w member = Some ws)
                                 (members_of w group_name)).
Proof.
  intros Hopen. rewrite send_to_group_run by done. eexists. split; [reflexivity|].
  split; [done|]. split; [done|]. rewrite written_app. split; [done|]. split.
  - intros Hnone. unfold members_of. rewrite Hnone. simpl.
    by rewrite app_nil_r, world_eta.
  - intros ws. by rewrite frames_to_fmap, fan_out_count.
Qed.

Lemma send_to_group_fans_out_witness :
  let w := run [Connect "alice" 1; Connect "bob" 2; Connect "carol" 3;
                Receive "alice" (create_group "g1"); Receive "bob" (join_group "g1");
                Receive "bob" (join_group "g1"); Disconnect "alice"] init in
  (send_to_group (system_payload "x") "g1" w).1 = Return ()
  ∧ written w (send_to_group (system_payload "x") "g1" w).2
    = [(2, system_payload "x"); (2, system_payload "x")].
Proof.
  intros w.
  destruct (send_to_group_fans_out (system_payload "x") "g1" w)
    as (w' & Hrun & _ & _ & Hwritten & _).
  - intros member ws _ _. reflexivity.
  - rewrite Hrun. split; [reflexivity|]. simpl. rewrite Hwritten. reflexivity.
Defined.

(** ** The branches of the receive loop *)

Lemma group_receiver_prefix g : String.prefix "group:" (String.append "group:" g) = true.
Proof. simpl. destruct g; reflexivity. Qed.

Lemma on_receive_main username message body w :
  message !! "type" = Some "chat" →
  message !! "receiver" = Some "main" →
  message !! "content" = Some body →
  on_receive username message w = broadcast (chat_payload username body "main") w.
Proof.
  intros Ht Hr Hc. unfold on_receive.
  unfold py_bind at 1. rewrite (getitem_Some _ _ _ _ Ht). rewrite decide_True by done.
  unfold py_bind at 1. rewrite (getitem_Some _ _ _ _ Hr). rewrite decide_True by done.
  unfold py_bind at 1. by rewrite (getitem_Some _ _ _ _ Hc).
Qed.

Lemma on_receive_group username message to body w :
  message !! "type" = Some "chat" →
  message !! "receiver" = Some to →
  message !! "content" = Some body →
  to ≠ "main" → String.prefix "group:" to = true →
  on_receive username message w =
    send_to_group (chat_payload username body to) (slice_from 6 to) w.
Proof.
  intros Ht Hr Hc Hmain Hgroup. unfold on_receive.
  unfold py_bind at 1. rewrite (getitem_Some _ _ _ _ Ht). rewrite decide_True by done.
  unfold py_bind at 1. rewrite (getitem_Some _ _ _ _ Hr).
  rewrite decide_False by done. rewrite Hgroup.
  unfold py_bind at 1. by rewrite (getitem_Some _ _ _ _ Hc).
Qed.

(** X8: a chat frame addressed to "main" is written, as the envelope
    with the handler's username as sender, to every registered socket in
    registry order, the sender's own included, provided the sockets take
    the write; nothing is stored and nothing else changes. *)
Theorem main_chat_reaches_everyone (username body : string)
    (message : gmap string string) (w : world) :
  message !! "type" = Some "chat" →
  message !! "receiver" = Some "main" →
  message !! "content" = Some body →
  (∀ ws, ws ∈ od_values (active_connections (manager w)) → failed w !! ws = None) →
  on_receive username message w =
    (Return (),
     mkWorld (manager w) (failed w)
             (wire w ++ ((λ ws, (ws, chat_payload username body "main"))
                           <$> od_values (active_connections (manager w))))).
Proof.
  intros Ht Hr Hc Hopen. rewrite (on_receive_main _ _ _ _ Ht Hr Hc).
  unfold broadcast. py. by apply for_each_send_open.
Qed.

Lemma main_chat_reaches_everyone_witness :
  let w := run [Connect "alice" 1; Connect "bob" 2] init in
  on_receive "alice" (chat "main" "hello") w =
    (Return (), mkWorld (manager w) (failed w)
                        [(1, chat_payload "alice" "hello" "main");
                         (2, chat_payload "alice" "hello" "main")]).
Proof.
  intros w.
  apply (main_chat_reaches_everyone "alice" "hello" (chat "main" "hello") w);
    reflexivity.
Defined.

(** X9: a chat frame addressed to "group:" followed by a name is written,
    as the envelope carrying the whole receiver string, to the online
    members of the group of that name in member order (to nobody when
    there is no such group), whether or not the sender is a member,
    provided the sockets take the write; nothing is stored and nothing
    else changes. *)
Theorem group_chat_reaches_online_members (username group_name body : string)
    (message : gmap string string) (w : world) :
  message !! "type" = Some "chat" →
  message !! "receiver" = Some (String.append "group:" group_name) →
  message !! "content" = Some body →
  (∀ member ws, member ∈ members_of w group_name → online w member = Some ws →
     failed w !! ws = None) →
  on_receive username message w =
    (Return (),
     mkWorld (manager w) (failed w)
             (wire w ++ ((λ ws, (ws, chat_payload username body
                                       (String.append "group:" group_name)))
                           <$> fan_out w (members_of w group_name)))).
Proof.
  intros Ht Hr Hc Hopen.
  rewrite (on_receive_group _ _ _ _ _ Ht Hr Hc);
    [|discriminate|apply group_receiver_prefix].
  change (slice_from 6 (String.append "group:" group_name)) with group_name.
  by apply send_to_group_run.
Qed.

Lemma group_chat_reaches_online_members_witness :
  let w := run [Connect "alice" 1; Connect "bob" 2; Connect "carol" 3;
                Receive "alice" (create_group "g1"); Receive "bob" (join_group "g1")] init in
  on_receive "carol" (chat "group:g1" "yo") w =
    (Return (), mkWorld (manager w) (failed w)
                        [(1, chat_payload "carol" "yo" "group:g1");
                         (2, chat_payload "carol" "yo" "group:g1")]).
Proof.
  intros w.
  apply (group_chat_reaches_online_members "carol" "g1" "yo" (chat "group:g1" "yo") w);
    reflexivity.
Defined.

(** X10: a chat frame addressed to "main" or to a "group:" receiver never
    changes the manager, whether the handler returns or raises: no
    message of these two kinds reaches the conversation index, and the set
    of failed sockets is as it was. *)
Theorem ephemeral_chat_not_stored (username to : string)
    (message : gmap string string) (w : world) :
  message !! "type" = Some "chat" →
  message !! "receiver" = Some to →
  to = "main" ∨ String.prefix "group:" to = true →
  manager (on_receive username message w).2 = manager w
  ∧ failed (on_receive username message w).2 = failed w.
Proof.
  intros Ht Hr Hto.
  enough (keeps only_wire (on_receive username message)) as H by apply H.
  unfold on_receive.
  apply keeps_bind_getitem; [apply _|]. intros type Ht'.
  assert (type = "chat") as -> by congruence. rewrite decide_True by done.
  apply keeps_bind_getitem; [apply _|]. intros to' Hr'.
  assert (to' = to) as -> by congruence.
  destruct (decide (to = "main")).
  { apply keeps_bind_getitem; [apply _|]. intros body _. apply keeps_broadcast. }
  destruct Hto as [? | ->]; [done|].
  apply keeps_bind_getitem; [apply _|]. intros body _. apply keeps_send_to_group.
Qed.

Lemma ephemeral_chat_not_stored_witness :
  let w := run [Connect "alice" 1; Connect "bob" 2; Fail 1 (RuntimeError "closed")] init in
  manager (on_receive "bob" (chat "main" "hello") w).2 = manager w.
Proof.
  intros w.
  apply (ephemeral_chat_not_stored "bob" "main" (chat "main" "hello") w);
    [reflexivity | reflexivity | by left].
Defined.

(** X11: a frame that lacks a field its branch reads ("type"; for a chat
    "receiver", then "content"; for create_group and join_group
    "group_name") raises [KeyError] for the first such field before the
    handler has written or stored anything, and the exception is not the
    one the handler catches: the receive loop ends there, the frames after
    it are not handled and the disconnect branch does not run. *)
Theorem missing_field_raises (username field : string)
    (message : gmap string string) (frames : list (gmap string string)) (w : world) :
  missing_field message = Some field →
  on_receive username message w = (Raise (KeyError field), w)
  ∧ try_except_disconnect (receive_loop username (message :: frames))
                          (on_disconnect username) w
    = (Raise (KeyError field), w).
Proof.
  intros Hmiss.
  assert (Hrun : on_receive username message w = (Raise (KeyError field), w)).
  { unfold missing_field in Hmiss. unfold on_receive.
    destruct (message !! "type") as [type|] eqn:Ht.
    2:{ injection Hmiss as <-. unfold py_bind. by rewrite (getitem_None _ _ _ Ht). }
    unfold py_bind at 1. rewrite (getitem_Some _ _ _ _ Ht).
    destruct (decide (type = "chat")) as [->|Hchat].
    - destruct (message !! "receiver") as [to|] eqn:Hr.
      2:{ injection Hmiss as <-. unfold py_bind. by rewrite (getitem_None _ _ _ Hr). }
      destruct (message !! "content") as [body|] eqn:Hc; [done|].
      injection Hmiss as <-.
      unfold py_bind at 1. rewrite (getitem_Some _ _ _ _ Hr).
      destruct (decide (to = "main")); [|destruct (String.prefix "group:" to)];
        unfold py_bind at 1; by rewrite (getitem_None _ _ _ Hc).
    - destruct (decide (type = "create_group" ∨ type = "join_group")) as [Hty|];
        [|done].
      destruct (message !! "group_name") as [g|] eqn:Hg; [done|].
      injection Hmiss as <-.
      destruct (decide (type = "create_group")); [|rewrite decide_True by tauto];
        unfold py_bind at 1; by rewrite (getitem_None _ _ _ Hg). }
  split; [exact Hrun|].
  unfold try_except_disconnect. simpl. unfold py_bind. by rewrite Hrun.
Qed.

Lemma missing_field_raises_witness :
  on_receive "alice" (<["type" := "chat"]> (<["receiver" := "bob"]> ∅))
             (run [Connect "alice" 1; Connect "bob" 2] init)
  = (Raise (KeyError "content"), run [Connect "alice" 1; Connect "bob" 2] init).
Proof.
  apply (missing_field_raises "alice" "content"
           (<["type" := "chat"]> (<["receiver" := "bob"]> ∅)) []
           (run [Connect "alice" 1; Connect "bob" 2] init)).
  reflexivity.
Defined.

(** X12: the frames the handler lets pass without any effect: a frame
    whose type is none of "chat", "create_group" and "join_group",
    whatever else it carries, and a join_group frame naming a group that
    does not exist (joining creates no group).  The handler returns and
    the world is as it was. *)
Theorem ignored_frames (username : string) (message : gmap string string) (w : world) :
  (∃ type, message !! "type" = Some type
           ∧ type ≠ "chat" ∧ type ≠ "create_group" ∧ type ≠ "join_group")
  ∨ (∃ group_name, message !! "type" = Some "join_group"
                   ∧ message !! "group_name" = Some group_name
                   ∧ groups (manager w) !! group_name = None) →
  on_receive username message w = (Return (), w).
Proof.
  intros [(type & Ht & H1 & H2 & H3)|(g & Ht & Hg & Hnone)].
  - unfold on_receive. unfold py_bind. rewrite (getitem_Some _ _ _ _ Ht).
    by rewrite !decide_False by done.
  - by rewrite (on_receive_join_group _ _ _ _ Ht Hg), Hnone.
Qed.

Lemma ignored_frames_witness :
  on_receive "alice" (join_group "nowhere") (run [Connect "alice" 1] init)
  = (Return (), run [Connect "alice" 1] init).
Proof.
  apply ignored_frames. right. exists "nowhere". repeat split.
Defined.

(** ** Group registry over whole executions *)

Lemma on_receive_groups username message w :
  groups (manager (on_receive username message w).2)
  = groups_after username message (groups (manager w)).
Proof.
  unfold groups_after. destruct (message !! "type") as [type|] eqn:Ht.
  2:{ unfold on_receive, py_bind. by rewrite (getitem_None _ _ _ Ht). }
  destruct (decide (type = "chat")) as [->|Hchat].
  { rewrite (keeps_agree_chat groups username message) by done.
    destruct (message !! "group_name"); [|done]. by rewrite !decide_False by done. }
  destruct (message !! "group_name") as [g|] eqn:Hg.
  - destruct (decide (type = "create_group")) as [->|Hcreate].
    { by rewrite (on_receive_create_group _ _ _ _ Ht Hg). }
    destruct (decide (type = "join_group")) as [->|Hjoin].
    { rewrite (on_receive_join_group _ _ _ _ Ht Hg).
      by destruct (groups (manager w) !! g). }
    unfold on_receive, py_bind. rewrite (getitem_Some _ _ _ _ Ht).
    by rewrite !decide_False by done.
  - unfold on_receive. unfold py_bind at 1. rewrite (getitem_Some _ _ _ _ Ht).
    rewrite decide_False by done.
    destruct (decide (type = "create_group")).
    { unfold py_bind. by rewrite (getitem_None _ _ _ Hg). }
    destruct (decide (type = "join_group")); [|done].
    unfold py_bind. by rewrite (getitem_None _ _ _ Hg).
Qed.

Lemma groups_after_dom username message gs :
  dom (groups_after username message gs) = dom gs ∪ created_by message.
Proof.
  unfold groups_after, created_by.
  destruct (message !! "type") as [type|]; [|set_solver].
  destruct (message !! "group_name") as [g|]; [|set_solver].
  destruct (decide (type = "create_group")).
  { rewrite dom_insert_L. set_solver. }
  destruct (decide (type = "join_group")); [|set_solver].
  destruct (gs !! g) eqn:Hg; [|set_solver].
  rewrite dom_insert_L. apply (elem_of_dom_2 (D := gset string)) in Hg. set_solver.
Qed.

Lemma groups_after_ok username message gs :
  groups_ok gs → groups_ok (groups_after username message gs).
Proof.
  intros Hgs. unfold groups_after.
  destruct (message !! "type") as [type|]; [|done].
  destruct (message !! "group_name") as [g|]; [|done].
  destruct (decide (type = "create_group")).
  { intros g' grp. destruct (decide (g = g')) as [<-|Hne].
    - rewrite lookup_insert_eq. by intros [= <-].
    - rewrite lookup_insert_ne by done. apply Hgs. }
  destruct (decide (type = "join_group")); [|done].
  destruct (gs !! g) as [old|] eqn:Hg; [|done].
  intros g' grp. destruct (decide (g = g')) as [<-|Hne].
  - rewrite lookup_insert_eq. intros [= <-]. simpl.
    split; [by apply (Hgs g old)|]. by destruct (members old).
  - rewrite lookup_insert_ne by done. apply Hgs.
Qed.

Lemma step_groups_after o w :
  groups (manager (step o w).2)
  = match o with
    | Receive username message => groups_after username message (groups (manager w))
    | _ => groups (manager w)
    end.
Proof.
  destruct o as [user|u ws|u message|u|ws e];
    try (by apply step_groups). apply on_receive_groups.
Qed.

(** X13: the groups that exist are exactly the groups that were created:
    after any sequence of operations from the initial world the names in
    [manager.groups] are the group names of the create_group frames
    handled so far.  No operation removes a group, and a join_group or
    chat frame creates none. *)
Theorem group_names_are_created (ops : list op) :
  dom (groups (manager (run ops init))) = created ops.
Proof.
  assert (H : ∀ w, dom (groups (manager (run ops w)))
                   = dom (groups (manager w)) ∪ created ops).
  { induction ops as [|o ops IH]; intros w; simpl; [set_solver|].
    rewrite IH, step_groups_after.
    destruct o; rewrite ?groups_after_dom; set_solver. }
  rewrite H. simpl. set_solver.
Qed.

(** X14: every group is well formed at all times: after any sequence of
    operations from the initial world a group is stored under the name it
    carries and has at least one member. *)
Theorem groups_are_named_and_inhabited (ops : list op) (group_name : string) (g : Group) :
  groups (manager (run ops init)) !! group_name = Some g →
  name g = group_name ∧ members g ≠ [].
Proof.
  assert (H : ∀ w, groups_ok (groups (manager w)) →
                   groups_ok (groups (manager (run ops w)))).
  { induction ops as [|o ops IH]; intros w Hw; simpl; [done|].
    apply IH. rewrite step_groups_after. destruct o; try done.
    by apply groups_after_ok. }
  apply H. intros g' grp. simpl. by rewrite lookup_empty.
Qed.

Lemma groups_are_named_and_inhabited_witness :
  ∃ g, groups (manager (run [Connect "alice" 1; Receive "alice" (create_group "g1");
                             Receive "alice" (create_group "g1")] init)) !! "g1" = Some g
       ∧ name g = "g1".
Proof.
  eexists. split; [reflexivity|].
  eapply (groups_are_named_and_inhabited
            [Connect "alice" 1; Receive "alice" (create_group "g1");
             Receive "alice" (create_group "g1")] "g1").
  reflexivity.
Defined.

(** ** Conversation index over whole executions *)

Lemma on_receive_no_content username message to w :
  message !! "type" = Some "chat" →
  message !! "receiver" = Some to →
  message !! "content" = None →
  on_receive username message w = (Raise (KeyError "content"), w).
Proof.
  intros Ht Hr Hc. unfold on_receive.
  unfold py_bind at 1. rewrite (getitem_Some _ _ _ _ Ht). rewrite decide_True by done.
  unfold py_bind at 1. rewrite (getitem_Some _ _ _ _ Hr).
  destruct (decide (to = "main")); [|destruct (String.prefix "group:" to)];
    unfold py_bind at 1; by rewrite (getitem_None _ _ _ Hc).
Qed.

Lemma step_grows o w :
  grows (messages (manager w)) (messages (manager (step o w).2)).
Proof.
  destruct o as [user|u ws|u message|u|ws e].
  - rewrite (touches_empty_messages w (step (Register user) w).2); [constructor|].
    by apply (step_touches (Register user)).
  - unfold step. rewrite connect_run. destruct (failed w !! ws); [constructor|].
    simpl. destruct (messages (manager w) !! u) eqn:Hu; by constructor.
  - simpl. destruct (direct_receiver message) as [to|] eqn:Hd.
    + apply direct_receiver_Some in Hd as (Ht & Hr & Hmain & Hgroup).
      destruct (message !! "content") as [body|] eqn:Hc.
      2:{ rewrite (on_receive_no_content _ _ _ _ Ht Hr Hc). constructor. }
      rewrite (on_receive_direct _ _ _ _ _ Ht Hr Hc Hmain Hgroup). unfold py_bind.
      pose proof (keeps_send_personal_message (chat_payload u body to) to w) as [Hm _].
      destruct (send_personal_message (chat_payload u body to) to w) as [[[]|e] w1];
        simpl in Hm |- *; [|rewrite Hm; constructor].
      rewrite store_message_run; simpl. rewrite Hm.
      destruct (messages (manager w) !! u); [|simpl; rewrite Hm; constructor].
      destruct (messages (manager w) !! to); simpl; rewrite ?Hm; constructor.
    + rewrite (touches_empty_messages w (on_receive u message w).2); [constructor|].
      pose proof (step_touches (Receive u message) w ltac:(done)) as H.
      simpl in H. unfold touched in H. by rewrite Hd in H.
  - rewrite (touches_empty_messages w (step (Disconnect u) w).2); [constructor|].
    by apply (step_touches (Disconnect u)).
  - constructor.
Qed.

Lemma extends_refl ms : extends ms ms.
Proof. intros a b l H. exists []. by rewrite app_nil_r. Qed.

Lemma extends_trans ms1 ms2 ms3 : extends ms1 ms2 → extends ms2 ms3 → extends ms1 ms3.
Proof.
  intros H1 H2 a b l Hl. destruct (H1 a b l Hl) as [l1 Hl1].
  destruct (H2 a b _ Hl1) as [l2 Hl2]. exists (l1 ++ l2). by rewrite app_assoc.
Qed.

Lemma extends_push a b message ms : extends ms (push a b message ms).
Proof.
  intros a' b' l Hl. destruct (decide ((a', b') = (a, b))) as [[= -> ->]|Hne].
  - exists [message]. rewrite thread_in_push_eq.
    + by rewrite Hl.
    + unfold thread_in in Hl. by destruct (ms !! a).
  - exists []. by rewrite thread_in_push_ne, app_nil_r.
Qed.

Lemma grows_extends ms ms' : grows ms ms' → extends ms ms'.
Proof.
  destruct 1 as [|u Hu|a b c|a b c].
  - apply extends_refl.
  - intros a b l Hl. exists []. rewrite app_nil_r. unfold thread_in in *.
    destruct (decide (u = a)) as [<-|Hne]; [by rewrite Hu in Hl|].
    by rewrite lookup_insert_ne.
  - apply extends_push.
  - eapply extends_trans; apply extends_push.
Qed.

(** X15: the stored history only grows at its end: after any further
    sequence of operations, whether they return or raise, every thread
    that existed is still there and begins with the messages it held, in
    the same order.  Nothing stored is ever removed, changed or
    reordered. *)
Theorem threads_are_append_only (ops : list op) (w : world) (a b : string)
    (l : list Message) :
  thread w a b = Some l →
  ∃ l', thread (run ops w) a b = Some (l ++ l').
Proof.
  assert (H : extends (messages (manager w)) (messages (manager (run ops w)))).
  { revert w. induction ops as [|o ops IH]; intros w; simpl; [apply extends_refl|].
    eapply extends_trans; [apply grows_extends, step_grows | apply IH]. }
  apply H.
Qed.

Lemma threads_are_append_only_witness :
  ∃ l', thread (run [Receive "bob" (chat "alice" "yo"); Disconnect "alice";
                     Receive "alice" (chat "bob" "again")]
                    (run [Connect "alice" 1; Connect "bob" 2;
                          Receive "alice" (chat "bob" "hi")] init)) "alice" "bob"
        = Some ([mkMessage "alice" "bob" "hi"] ++ l').
Proof.
  apply threads_are_append_only. reflexivity.
Defined.

Lemma labelled_push a b c ms :
  labelled ms →
  labelled (push a b (mkMessage a b c) ms) ∧ labelled (push b a (mkMessage a b c) ms).
Proof.
  intros Hms. split.
  - intros a' b' l m Hl Hm. destruct (decide ((a', b') = (a, b))) as [[= -> ->]|Hne].
    + destruct (ms !! a) as [inner|] eqn:Ha.
      * rewrite thread_in_push_eq in Hl by eauto. injection Hl as <-.
        apply elem_of_app in Hm as [Hm | ->%list_elem_of_singleton]; [|by left].
        destruct (thread_in ms a b) as [old|] eqn:Hold; [|by apply elem_of_nil in Hm].
        by apply (Hms a b old).
      * unfold push in Hl. rewrite Ha in Hl. by apply (Hms a b l).
    + rewrite thread_in_push_ne in Hl by done. by apply (Hms a' b' l).
  - intros a' b' l m Hl Hm. destruct (decide ((a', b') = (b, a))) as [[= -> ->]|Hne].
    + destruct (ms !! b) as [inner|] eqn:Hb.
      * rewrite thread_in_push_eq in Hl by eauto. injection Hl as <-.
        apply elem_of_app in Hm as [Hm | ->%list_elem_of_singleton]; [|by right].
        destruct (thread_in ms b a) as [old|] eqn:Hold; [|by apply elem_of_nil in Hm].
        by apply (Hms b a old).
      * unfold push in Hl. rewrite Hb in Hl. by apply (Hms b a l).
    + rewrite thread_in_push_ne in Hl by done. by apply (Hms a' b' l).
Qed.

Lemma grows_labelled ms ms' : grows ms ms' → labelled ms → labelled ms'.
Proof.
  destruct 1 as [|u Hu|a b c|a b c]; intros Hms.
  - done.
  - intros a b l m Hl. unfold thread_in in Hl.
    destruct (decide (u = a)) as [<-|Hne].
    + rewrite lookup_insert_eq in Hl. simpl in Hl. by rewrite lookup_empty in Hl.
    + rewrite lookup_insert_ne in Hl by done. by apply (Hms a b l).
  - by apply labelled_push.
  - by apply labelled_push, labelled_push.
Qed.

(** X16: a thread holds only its own conversation: after any sequence of
    operations from the initial world, every message in the thread of [a]
    keyed by [b] was sent by [a] to [b] or by [b] to [a]. *)
Theorem threads_hold_their_own_messages (ops : list op) (a b : string)
    (l : list Message) (message : Message) :
  thread (run ops init) a b = Some l → message ∈ l →
  (sender message = a ∧ receiver message = b)
  ∨ (sender message = b ∧ receiver message = a).
Proof.
  assert (H : ∀ w, labelled (messages (manager w)) →
                   labelled (messages (manager (run ops w)))).
  { induction ops as [|o ops IH]; intros w Hw; simpl; [done|].
    apply IH. eapply grows_labelled; [apply step_grows | done]. }
  apply H. intros a' b' l' m Hl. by unfold thread_in in Hl.
Qed.

Lemma threads_hold_their_own_messages_witness :
  (sender (mkMessage "bob" "alice" "yo") = "alice"
   ∧ receiver (mkMessage "bob" "alice" "yo") = "bob")
  ∨ (sender (mkMessage "bob" "alice" "yo") = "bob"
     ∧ receiver (mkMessage "bob" "alice" "yo") = "alice").
Proof.
  apply (threads_hold_their_own_messages
           [Connect "alice" 1; Connect "bob" 2; Receive "alice" (chat "bob" "hi");
            Receive "bob" (chat "alice" "yo")] "alice" "bob"
           [mkMessage "alice" "bob" "hi"; mkMessage "bob" "alice" "yo"]).
  - reflexivity.
  - apply list_elem_of_further, list_elem_of_here.
Defined.

(** X17: whoever is online has an inbox: after any sequence of operations
    from the initial world, [get_inbox] of a username that is in the
    registry returns a mapping and changes nothing; it never raises the
    404 for a user that is online. *)
Theorem online_user_has_inbox (ops : list op) (username : string) :
  is_Some (online (run ops init) username) →
  ∃ inner, get_inbox username (run ops init) = (Return inner, run ops init).
Proof.
  intros Hon. apply (run_indexed ops init init_indexed) in Hon as [inner Hin].
  exists inner. by rewrite get_inbox_run, Hin.
Qed.

Lemma online_user_has_inbox_witness :
  ∃ inner, get_inbox "bob" (run [Connect "bob" 2; Connect "alice" 1] init)
           = (Return inner, run [Connect "bob" 2; Connect "alice" 1] init).
Proof.
  apply (online_user_has_inbox [Connect "bob" 2; Connect "alice" 1] "bob").
  vm_compute. eauto.
Defined.

(** ** Online users *)

Lemma online_users_rows (l : list string) w :
  (∀ username, username ∈ l → is_Some (users (manager w) !! username)) →
  ∃ rows, comprehension (λ username, u <~ users_getitem username; py_ret (username, gender u)) l w
          = (Return rows, w)
          ∧ Forall2 (λ username row,
                       row.1 = username
                       ∧ ∃ u, users (manager w) !! username = Some u ∧ row.2 = gender u)
                    l rows.
Proof.
  induction l as [|x l IH]; intros Hreg; [exists []; by split|].
  destruct (Hreg x) as [u Hx]; [apply list_elem_of_here|].
  destruct IH as (rows & Hrun & Hrows).
  { intros y Hy. by apply Hreg, list_elem_of_further. }
  exists ((x, gender u) :: rows). simpl. unfold py_bind at 1 2.
  rewrite users_getitem_run, Hx. unfold py_ret at 1. cbv beta iota.
  unfold py_bind at 1. rewrite Hrun. split; [done|].
  apply Forall2_cons. split; [|done]. split; [done|]. by exists u.
Qed.

(** X18: [get_online_users] returns exactly when every online username
    has a profile.  It then gives one row per online username, in
    registry order, each with the gender of that username's profile, and
    changes nothing. *)
Theorem get_online_users_rows (w : world) :
  ((∃ rows, get_online_users w = (Return rows, w))
   ↔ ∀ username, is_Some (online w username) → is_Some (users (manager w) !! username))
  ∧ ∀ rows, get_online_users w = (Return rows, w) →
      Forall2 (λ username row,
                 row.1 = username
                 ∧ ∃ u, users (manager w) !! username = Some u ∧ row.2 = gender u)
              (od_keys (active_connections (manager w))) rows.
Proof.
  assert (Hyes : (∀ username, is_Some (online w username) →
                    is_Some (users (manager w) !! username)) →
                 ∃ rows, get_online_users w = (Return rows, w)
                         ∧ Forall2 (λ username row,
                                      row.1 = username
                                      ∧ ∃ u, users (manager w) !! username = Some u
                                             ∧ row.2 = gender u)
                                   (od_keys (active_connections (manager w))) rows).
  { intros Hreg. unfold get_online_users. unfold py_bind at 1. simpl.
    apply online_users_rows. intros u Hu. by apply Hreg, od_get_is_Some. }
  assert (Hno : ∀ username, is_Some (online w username) →
                  users (manager w) !! username = None →
                  ∀ rows, get_online_users w ≠ (Return rows, w)).
  { intros u Hu Hnone rows. unfold get_online_users. unfold py_bind at 1. simpl.
    destruct (online_users_unregistered
                (od_keys (active_connections (manager w))) u w) as (key & -> & _);
      [by apply od_get_is_Some | done | done]. }
  split; [split|].
  - intros [rows Hrun] u Hu.
    destruct (users (manager w) !! u) eqn:Hp; [eauto|].
    by destruct (Hno u Hu Hp rows).
  - intros Hreg. destruct (Hyes Hreg) as (rows & Hrun & _). eauto.
  - intros rows Hrun.
    assert (Hreg : ∀ username, is_Some (online w username) →
                     is_Some (users (manager w) !! username)).
    { intros u Hu. destruct (users (manager w) !! u) eqn:Hp; [eauto|].
      by destruct (Hno u Hu Hp rows). }
    destruct (Hyes Hreg) as (rows' & Hrun' & Hrows).
    rewrite Hrun in Hrun'. by injection Hrun' as ->.
Qed.

Lemma get_online_users_rows_witness :
  let w := run [Register (mkUser "bob" 25 "m"); Register (mkUser "alice" 30 "f");
                Connect "alice" 1; Connect "bob" 2] init in
  Forall2 (λ username row,
             row.1 = username
             ∧ ∃ u, users (manager w) !! username = Some u ∧ row.2 = gender u)
          ["alice"; "bob"] [("alice", "f"); ("bob", "m")].
Proof.
  intros w.
  apply (proj2 (get_online_users_rows w) [("alice", "f"); ("bob", "m")]).
  reflexivity.
Defined.

(** ** Whole sessions *)


(** X19: a session whose handshake fails leaves no trace: when [accept]
    raises on the socket, [websocket_endpoint] raises the same exception,
    the username is not registered, gets no conversation-index entry, none
    of its frames is handled and the world is as it was. *)
Theorem failed_handshake_leaves_no_trace (websocket : nat) (username : string)
    (frames : list (gmap string string)) (e : exn) (w : world) :
  failed w !! websocket = Some e →
  websocket_endpoint websocket username frames w = (Raise e, w).
Proof.
  intros Hbad. unfold websocket_endpoint, py_bind. by rewrite connect_run, Hbad.
Qed.

Lemma failed_handshake_leaves_no_trace_witness :
  websocket_endpoint 1 "alice" [chat "main" "hello"]
    (run [Fail 1 (RuntimeError "closed")] init)
  = (Raise (RuntimeError "closed"), run [Fail 1 (RuntimeError "closed")] init).
Proof.
  apply (failed_handshake_leaves_no_trace 1 "alice" [chat "main" "hello"]
           (RuntimeError "closed") (run [Fail 1 (RuntimeError "closed")] init)).
  reflexivity.
Defined.



(** X21: the handler takes a [WebSocketDisconnect] raised by a write to a
    peer for the disconnect of its own client.  When a direct chat is
    addressed to an online receiver whose socket raises
    [WebSocketDisconnect] on the write, the sender's session runs its
    disconnect branch at once: the frames after it are not handled, the
    message is not stored, and the sender, if online, is taken out of the
    registry. *)
Theorem peer_disconnect_ends_the_sender_session (username to body : string)
    (message : gmap string string) (frames : list (gmap string string))
    (peer : nat) (w : world) :
  message !! "type" = Some "chat" →
  message !! "receiver" = Some to →
  message !! "content" = Some body →
  to ≠ "main" → String.prefix "group:" to = false →
  online w to = Some peer →
  failed w !! peer = Some WebSocketDisconnect →
  try_except_disconnect (receive_loop username (message :: frames))
                        (on_disconnect username) w
  = on_disconnect username w
  ∧ messages (manager (on_disconnect username w).2) = messages (manager w)
  ∧ (is_Some (online w username) → online (on_disconnect username w).2 username = None).
Proof.
  intros Ht Hr Hc Hmain Hgroup Hon Hbad.
  assert (Hrun : on_receive username message w = (Raise WebSocketDisconnect, w)).
  { rewrite (on_receive_direct _ _ _ _ _ Ht Hr Hc Hmain Hgroup). unfold py_bind.
    rewrite (send_personal_message_online _ _ peer) by done.
    by rewrite (send_text_failed _ _ WebSocketDisconnect). }
  split; [|split].
  - unfold try_except_disconnect. simpl. unfold py_bind. by rewrite Hrun.
  - by apply (keeps_agree_on_disconnect messages).
  - intros [ws Hu]. by apply (on_disconnect_unregisters _ ws).
Qed.

Lemma peer_disconnect_ends_the_sender_session_witness :
  let w := run [Connect "alice" 1; Connect "bob" 2; Fail 2 WebSocketDisconnect] init in
  try_except_disconnect (receive_loop "alice" [chat "bob" "hi"; chat "main" "hello"])
                        (on_disconnect "alice") w
  = on_disconnect "alice" w.
Proof.
  intros w.
  apply (peer_disconnect_ends_the_sender_session "alice" "bob" "hi" (chat "bob" "hi")
           [chat "main" "hello"] 2 w); try reflexivity. discriminate.
Defined.

Lemma receive_loop_all_return username frames (handler : Py unit) w :
  all_return (Receive username <$> frames) w →
  try_except_disconnect (receive_loop username frames) handler w
  = handler (run (Receive username <$> frames) w).
Proof.
  revert w. induction frames as [|message frames IH]; intros w Hall; [done|].
  rewrite fmap_cons in Hall |- *. cbn [run all_return step] in Hall |- *.
  destruct Hall as [Hret Hall].
  rewrite <- (IH _ Hall). unfold try_except_disconnect. cbn [receive_loop].
  unfold py_bind.
  destruct (on_receive username message w) as [[[]|e] w1]; [done|]. by simpl in Hret.
Qed.

(** X22: a session in which [connect] and the handling of every frame
    return is the sequence of its parts: [websocket_endpoint] ends, when
    the client goes away, with the outcome of the disconnect branch run in
    the world that [connect] followed by the frames, one loop iteration
    each and in order, has produced. *)
Theorem clean_session_runs_its_parts (websocket : nat) (username : string)
    (frames : list (gmap string string)) (w : world) :
  all_return (Connect username websocket :: (Receive username <$> frames)) w →
  websocket_endpoint websocket username frames w
  = on_disconnect username
      (run (Connect username websocket :: (Receive username <$> frames)) w).
Proof.
  cbn [run all_return step]. intros [Hconnect Hall].
  unfold websocket_endpoint, py_bind.
  destruct (connect username websocket w) as [[[]|e] w1]; [|done].
  by apply receive_loop_all_return.
Qed.

Lemma clean_session_runs_its_parts_witness :
  websocket_endpoint 1 "alice" [create_group "g1"; chat "alice" "note"] init
  = on_disconnect "alice"
      (run [Connect "alice" 1; Receive "alice" (create_group "g1");
            Receive "alice" (chat "alice" "note")] init).
Proof.
  apply (clean_session_runs_its_parts 1 "alice"
           [create_group "g1"; chat "alice" "note"] init).
  repeat split.
Defined.
